(** * MSEEvaluator: a shallow embedding and its verification

    The development embeds
    [sentence_transformers/evaluation/MSEEvaluator.py] in Rocq:

    - embeddings are numpy arrays of IEEE-754 binary floating-point numbers
      of one of numpy's float dtypes, modelled with the Standard Library's
      [spec_float] (round to nearest even, no NaN payload);
    - the numpy operations the evaluator uses (broadcasting subtraction,
      element-wise square, mean, scalar multiplication) are modelled on
      two-dimensional arrays with an explicit shape; all arrays of a run
      have one dtype; the mean follows numpy's [_mean] and the pairwise
      summation of its [add.reduce] (float16 is accumulated in float32, the
      sum is divided in float64 by the exact element count and cast back),
      and a numpy scalar times a Python [int] stays in the dtype of the
      scalar (the promotion rules of numpy 2);
    - a CSV file is the list of its rows, a row the list of the cells given
      to [csv.writer], before they are rendered as text;
    - Python exceptions are an error result, side effects (file system,
      logger, calls of [encode]) are threaded through an explicit world;
      the world knows the regular files, the directories and the paths the
      operating system refuses to open, so that [open] can fail. *)

From Stdlib Require Import ZArith Ascii String Floats.SpecFloat.
From stdpp Require Import gmap strings list pretty.

Local Open Scope Z_scope.

(** ** Floating-point layer *)

Abbreviation float := spec_float.

(** Classification of floats, as [numpy.isnan] and [numpy.isfinite]. *)
Definition is_nan (x : float) : bool :=
  match x with S754_nan => true | _ => false end.

Definition is_finite (x : float) : bool :=
  match x with S754_zero _ | S754_finite _ _ _ => true | _ => false end.

(** [sign_bit x] is the sign bit of [x]; [NaN] has none in [spec_float] and
    is given [false]. *)
Definition sign_bit (x : float) : bool :=
  match x with
  | S754_zero s | S754_infinity s | S754_finite s _ _ => s
  | S754_nan => false
  end.

(** [x] carries a clear sign bit or is [NaN]: the invariant of every
    intermediate value of the MSE after the squaring. *)
Definition nan_or_positive (x : float) : bool := negb (sign_bit x).

(** [x] is [NaN] or compares [>= 0]: as [nan_or_positive], or [-0.0]. *)
Definition nonneg_or_nan (x : float) : bool :=
  match x with S754_zero _ => true | _ => nan_or_positive x end.

Definition is_zero (x : float) : bool :=
  match x with S754_zero _ => true | _ => false end.

(** [x] is a number (not [NaN]) that is neither a zero: a finite non-zero
    number or an infinity. *)
Definition is_nonzero_number (x : float) : bool :=
  match x with S754_finite _ _ _ | S754_infinity _ => true | _ => false end.

Definition pos_zero : float := S754_zero false.
Definition neg_zero : float := S754_zero true.

(** ** numpy arrays

    A two-dimensional [ndarray]: the shape [(rows, columns)] and the
    elements, row by row.  The shape is kept explicitly, as numpy does, so
    that an array with no row still has a width. *)
Record ndarray := mk_ndarray {
  shape : nat * nat;
  rows : list (list float)
}.

Definition nrows (a : ndarray) : nat := fst (shape a).
Definition ncols (a : ndarray) : nat := snd (shape a).

(** [a.size]: the number of elements, the product of the shape. *)
Definition np_size (a : ndarray) : nat := (nrows a * ncols a)%nat.

(** The invariant of every numpy array: the elements fill the shape. *)
Definition wf_ndarray (a : ndarray) : Prop :=
  length (rows a) = nrows a ∧ Forall (λ r, length r = ncols a) (rows a).

(** [a.ravel()]: the elements in row-major order. *)
Definition ravel (a : ndarray) : list float := concat (rows a).

(** numpy's broadcasting rule for one axis: equal extents, or one of them
    is 1 and is stretched to the other. *)
Definition broadcast_dim (m n : nat) : option nat :=
  if (m =? n)%nat then Some m
  else if (m =? 1)%nat then Some n
  else if (n =? 1)%nat then Some m
  else None.

Definition broadcast_shapes (s t : nat * nat) : option (nat * nat) :=
  match broadcast_dim (fst s) (fst t), broadcast_dim (snd s) (snd t) with
  | Some r, Some c => Some (r, c)
  | _, _ => None
  end.

(** Stretching an axis of extent 1 to extent [n]; any other axis is kept. *)
Definition stretch {A} (n : nat) (l : list A) : list A :=
  if (length l =? n)%nat then l
  else match l with
       | [x] => replicate n x
       | _ => l
       end.

(** [numpy.broadcast_to(a, s)] for a shape [s] that [a] broadcasts to. *)
Definition broadcast_to (s : nat * nat) (a : ndarray) : ndarray :=
  mk_ndarray s (stretch (fst s) (map (stretch (snd s)) (rows a))).

(** The errors of the operating system that [open] reports. *)
Inductive os_error :=
| FileNotFoundError
| IsADirectoryError
| NotADirectoryError
| PermissionError
| OtherOSError (errno : Z).

(** Python exceptions the evaluator can raise. *)
Inductive exn :=
| AttributeError (obj attr : string)
| ValueError (msg : string)
| OSError (kind : os_error) (path : string).

Inductive result (A : Type) :=
| Ok (a : A)
| Raise (e : exn).
Arguments Ok {A} a.
Arguments Raise {A} e.

Definition broadcast_error : exn :=
  ValueError "operands could not be broadcast together".

(** ** numpy's summation

    The inner loop of [add.reduce] on floats ([pairwise_sum] of numpy's
    [loops_utils.h]), over any addition: fewer than 8 elements are added one
    after the other, starting from [-0.0]; up to 128 elements are added into
    8 accumulators that are combined as a tree, the elements after the last
    full group of 8 one after the other; longer inputs are split near the
    middle, at a multiple of 8, and the two sums added. *)
Definition split_point (n : nat) : nat := (n / 2 - (n / 2) mod 8)%nat.
Arguments split_point : simpl never.

Section PairwiseSum.
Context {A : Type}.
Variable add : A → A → A.
Variable zero : A.

Definition sum_loop (res : A) (l : list A) : A := fold_left add l res.

Fixpoint accumulate8 (r l : list A) : list A * list A :=
  match l with
  | a0 :: a1 :: a2 :: a3 :: a4 :: a5 :: a6 :: a7 :: l' =>
      accumulate8 (zip_with add r [a0; a1; a2; a3; a4; a5; a6; a7]) l'
  | _ => (r, l)
  end.

Definition tree8 (r : list A) : A :=
  match r with
  | [r0; r1; r2; r3; r4; r5; r6; r7] =>
      add (add (add r0 r1) (add r2 r3)) (add (add r4 r5) (add r6 r7))
  | _ => zero
  end.

Definition sum_block (l : list A) : A :=
  let '(r, rest) := accumulate8 (take 8 l) (drop 8 l) in
  sum_loop (tree8 r) rest.

(** [fuel] bounds the depth of the recursion; the length of the list is
    enough ([pairwise_sum_fuel]). *)
Fixpoint pairwise_sum (fuel : nat) (l : list A) : A :=
  let n := length l in
  if (n <? 8)%nat then sum_loop zero l
  else if (n <=? 128)%nat then sum_block l
  else match fuel with
       | O => sum_block l
       | S fuel' =>
           let n2 := split_point n in
           add (pairwise_sum fuel' (take n2 l)) (pairwise_sum fuel' (drop n2 l))
       end.

(** [add.reduce] over all elements: the result starts as [identity] and
    the inner loop adds the pairwise sum of each chunk the iterator hands
    over, [chunk] elements at a time. *)
Fixpoint reduce_chunks (fuel chunk : nat) (acc : A) (l : list A) : A :=
  match l, fuel with
  | [], _ | _, O => acc
  | _, S fuel' =>
      reduce_chunks fuel' chunk
        (add acc (pairwise_sum (length (take chunk l)) (take chunk l)))
        (drop chunk l)
  end.

End PairwiseSum.

(** numpy's binary floating-point dtypes.  [prec_of] is the number of
    mantissa bits (implicit one included), [emax_of] the exponent of the
    infinities. *)
Inductive dtype := float16 | float32 | float64.

Definition prec_of (dt : dtype) : Z :=
  match dt with float16 => 11 | float32 => 24 | float64 => 53 end.

Definition emax_of (dt : dtype) : Z :=
  match dt with float16 => 16 | float32 => 128 | float64 => 1024 end.

(** The default size of the buffer of numpy's iterators, in elements. *)
Definition NPY_BUFSIZE : nat := (8 * 1024)%nat.

Definition dtype_eqb (a b : dtype) : bool :=
  match a, b with
  | float16, float16 | float32, float32 | float64, float64 => true
  | _, _ => false
  end.

(** [x.astype(to)] on a float of the dtype [from]: numbers are rounded to
    nearest even in the new format, overflowing to infinity; nothing happens
    between equal dtypes. *)
Definition cast_float (from to : dtype) (x : float) : float :=
  if dtype_eqb from to then x
  else match x with
       | S754_finite s m e => binary_round (prec_of to) (emax_of to) s m e
       | _ => x
       end.

Section FloatFormat.
(** The dtype of the arrays at hand. *)
Variable dt : dtype.

(** Conversion of a Python [int] to a float of the format, rounding to
    nearest even. *)
Definition float_of_Z (n : Z) : float := binary_normalize (prec_of dt) (emax_of dt) n 0 false.

Definition float_of_nat (n : nat) : float := float_of_Z (Z.of_nat n).

Definition fadd := SFadd (prec_of dt) (emax_of dt).
Definition fsub := SFsub (prec_of dt) (emax_of dt).
Definition fmul := SFmul (prec_of dt) (emax_of dt).
Definition fdiv := SFdiv (prec_of dt) (emax_of dt).
Definition fneg := SFopp.

(** Python comparison operators on floats: any comparison with [NaN] is
    [False]. *)
Definition fle (x y : float) : bool := SFleb x y.
Definition feq (x y : float) : bool := SFeqb x y.

(** [a - b] on arrays: broadcast both operands to the common shape and
    subtract element by element; shapes that do not broadcast raise
    [ValueError]. *)
Definition np_sub (a b : ndarray) : result ndarray :=
  match broadcast_shapes (shape a) (shape b) with
  | Some s =>
      Ok (mk_ndarray s
            (zip_with (zip_with fsub) (rows (broadcast_to s a)) (rows (broadcast_to s b))))
  | None => Raise broadcast_error
  end.

(** [a ** 2] on a float array: every element multiplied by itself. *)
Definition np_square (a : ndarray) : ndarray :=
  mk_ndarray (shape a) (map (map (λ x, fmul x x)) (rows a)).

(** The dtype [_mean] sums in: float32 for float16, the dtype itself
    otherwise. *)
Definition acc_dtype : dtype :=
  match dt with float16 => float32 | _ => dt end.

(** [umr_sum(arr, None, dtype)] of [_mean] on the elements in row-major
    order: [add.reduce] from the identity [0.0] in the accumulator dtype.
    When the elements have to be cast (float16) the iterator hands them to
    the inner loop through its buffer, 8192 elements at a time; otherwise
    the inner loop receives all elements at once. *)
Definition np_sum_list (l : list float) : float :=
  let acc := acc_dtype in
  let chunk := match dt with float16 => NPY_BUFSIZE | _ => length l end in
  reduce_chunks (SFadd (prec_of acc) (emax_of acc)) neg_zero (length l) chunk
    pos_zero (map (cast_float dt acc) l).

(** [_mean] on the elements in row-major order and their count: the sum is
    divided, as a float64, by the count and the quotient cast to the dtype
    of the array; the mean of no element is [0.0 / 0 = NaN]. *)
Definition np_mean_list (l : list float) (count : nat) : float :=
  cast_float float64 dt
    (SFdiv (prec_of float64) (emax_of float64)
       (cast_float acc_dtype float64 (np_sum_list l))
       (binary_normalize (prec_of float64) (emax_of float64) (Z.of_nat count) 0 false)).

(** [a.sum()] in the accumulator dtype of the mean, and [a.mean()]. *)
Definition np_sum (a : ndarray) : float := np_sum_list (ravel a).

Definition np_mean (a : ndarray) : float := np_mean_list (ravel a) (np_size a).

End FloatFormat.

(** ** The world: file system, logger and calls of the encoders *)

(** A cell of a CSV row as [csv.writer] receives it, before it is rendered
    as text. *)
Inductive csv_cell :=
| CellStr (s : string)
| CellInt (n : Z)
| CellFloat (x : float).

Inductive open_mode := ModeAppend | ModeWrite.

(** What the outside world observes of a run. *)
Inductive event :=
| EvEncode (model : nat) (truncate : option nat) (sentences : list string)
    (show_progress_bar : bool) (batch_size : Z)
| EvLogInfo (msg : string)
| EvLogMSE (mse : float)
| EvOpen (path : string) (mode : open_mode)
| EvWriteRow (path : string) (row : list csv_cell).

(** The regular files (a CSV file is the list of its rows), the
    directories that exist besides the current directory and the root, the
    paths the operating system refuses to open (with the error it reports:
    missing permissions, a component that is no directory, ...), and the
    trace of events so far. *)
Record World := mk_World {
  files : gmap string (list (list csv_cell));
  dirs : gset string;
  faults : gmap string os_error;
  trace : list event
}.

Definition emit (e : event) (w : World) : World :=
  mk_World (files w) (dirs w) (faults w) (trace w ++ [e]).

Definition set_files (fs : gmap string (list (list csv_cell))) (w : World) : World :=
  mk_World fs (dirs w) (faults w) (trace w).

(** Computations that act on the world and return or raise. *)
Definition M (A : Type) : Type := World → result A * World.

Definition ret {A} (a : A) : M A := λ w, (Ok a, w).

Definition raise {A} (e : exn) : M A := λ w, (Raise e, w).

Definition bind {A B} (m : M A) (k : A → M B) : M B :=
  λ w, match m w with
       | (Ok a, w') => k a w'
       | (Raise e, w') => (Raise e, w')
       end.

Definition lift {A} (r : result A) : M A := λ w, (r, w).

Notation "'let!' x ':=' m 'in' k" := (bind m (λ x, k))
  (at level 10, x pattern, m at level 100, k at level 200).

(** [logger.info(msg)] *)
Definition logger_info (msg : string) : M unit :=
  λ w, (Ok tt, emit (EvLogInfo msg) w).

(** The second [logger.info] of [__call__] (line 86), which formats the
    MSE: the event keeps the number, its rendering as text is not
    modelled. *)
Definition logger_info_mse (mse : float) : M unit :=
  λ w, (Ok tt, emit (EvLogMSE mse) w).

(** [os.path.isfile(path)] *)
Definition os_path_isfile (path : string) : M bool :=
  λ w, (Ok (bool_decide (is_Some (files w !! path))), w).

Fixpoint contains_slash (s : string) : bool :=
  match s with
  | EmptyString => false
  | String c s' => bool_decide (c = "/"%char) || contains_slash s'
  end.

(** The part of a path up to and including its last slash. *)
Fixpoint head_of_path (s : string) : string :=
  match s with
  | EmptyString => EmptyString
  | String c s' =>
      if contains_slash s then String c (head_of_path s') else EmptyString
  end.

(** [s.rstrip("/")] *)
Fixpoint rstrip_slash (s : string) : string :=
  match s with
  | EmptyString => EmptyString
  | String c s' =>
      match rstrip_slash s' with
      | EmptyString => if bool_decide (c = "/"%char) then EmptyString
                       else String c EmptyString
      | r => String c r
      end
  end.

(** [os.path.dirname(path)] of [posixpath]: the head of the path without
    its trailing slashes, unless it consists of slashes only. *)
Definition os_path_dirname (path : string) : string :=
  let head := head_of_path path in
  match rstrip_slash head with
  | EmptyString => head
  | dir => dir
  end.

(** Whether the directory a new file at [path] is created in exists: the
    current directory (empty [dirname]) and the root always do. *)
Definition parent_exists (w : World) (path : string) : bool :=
  let dir := os_path_dirname path in
  match rstrip_slash dir with
  | EmptyString => true
  | _ => bool_decide (dir ∈ dirs w)
  end.

(** The error [open(path, mode)] raises for the modes ["w"] and ["a"], if
    any: the refusal of the operating system recorded for the path; a path
    that is a directory; a file that does not exist in a directory that
    does not exist. *)
Definition open_fault (w : World) (path : string) : option os_error :=
  match faults w !! path with
  | Some e => Some e
  | None =>
      if bool_decide (path ∈ dirs w) then Some IsADirectoryError
      else match files w !! path with
           | Some _ => None
           | None => if parent_exists w path then None else Some FileNotFoundError
           end
  end.

(** [open(path, mode=...)]: mode ["w"] creates or truncates the file, mode
    ["a"] keeps an existing file and creates a missing one; an [open] that
    fails raises [OSError] and leaves the world as it is. *)
Definition open_file (path : string) (mode : open_mode) : M unit :=
  λ w,
    match open_fault w path with
    | Some e => (Raise (OSError e path), w)
    | None =>
        let fs := match mode, files w !! path with
                  | ModeAppend, Some _ => files w
                  | _, _ => <[path := []]> (files w)
                  end in
        (Ok tt, emit (EvOpen path mode) (set_files fs w))
    end.

(** [csv.writer(f).writerow(row)]: one row at the end of the open file. *)
Definition writerow (path : string) (row : list csv_cell) : M unit :=
  λ w,
    let old := default [] (files w !! path) in
    (Ok tt, emit (EvWriteRow path row) (set_files (<[path := old ++ [row]]> (files w)) w)).

Fixpoint ends_with_slash (s : string) : bool :=
  match s with
  | EmptyString => false
  | String c EmptyString => bool_decide (c = "/"%char)
  | String _ s' => ends_with_slash s'
  end.

(** [os.path.join(a, b)] of [posixpath]. *)
Definition os_path_join (a b : string) : string :=
  if String.prefix "/" b then b
  else if bool_decide (a = "") || ends_with_slash a then a +:+ b
  else a +:+ "/" +:+ b.

(** ** The embedding models *)

(** Modelled from the spec: [SentenceTransformer] is not part of the source
    file.  The collaborator contract of the spec is an
    [encode(list_of_strings, ...) -> matrix] operation and a scoped
    truncation-dimension context, and the evaluated model carries persisted
    metadata the metrics are written to.  [st_embed] is the embedding
    function of the model, given the truncation dimension in effect;
    [st_id] is the identity of the object. *)
Record SentenceTransformer := mk_SentenceTransformer {
  st_id : nat;
  st_truncate_dim : option nat;
  st_embed : option nat → list string → bool → Z → ndarray;
  st_card_metrics : gmap string float
}.

Definition set_truncate_dim (d : option nat) (m : SentenceTransformer) :=
  mk_SentenceTransformer (st_id m) d (st_embed m) (st_card_metrics m).

Definition set_card_metrics (ms : gmap string float) (m : SentenceTransformer) :=
  mk_SentenceTransformer (st_id m) (st_truncate_dim m) (st_embed m) ms.

(** Modelled from the spec: [model.encode(sentences, show_progress_bar=...,
    batch_size=..., convert_to_numpy=True)] returns the matrix of the
    embeddings under the truncation dimension the model currently has. *)
Definition encode (m : SentenceTransformer) (sentences : list string)
    (show_progress_bar : bool) (batch_size : Z) : M ndarray :=
  λ w, (Ok (st_embed m (st_truncate_dim m) sentences show_progress_bar batch_size),
        emit (EvEncode (st_id m) (st_truncate_dim m) sentences show_progress_bar batch_size) w).

(** The context manager of a [with] statement of the evaluator:
    [nullcontext()], or [model.truncate_sentence_embeddings(d)] which
    remembers the truncation dimension it replaces. *)
Inductive context_manager :=
| NullContext
| TruncateContext (saved : option nat).

(** Modelled from the spec: entering the scoped truncation context sets the
    truncation dimension of the model, leaving it restores the former one. *)
Definition truncate_sentence_embeddings (d : nat) (m : SentenceTransformer)
    : SentenceTransformer * context_manager :=
  (set_truncate_dim (Some d) m, TruncateContext (st_truncate_dim m)).

(** Modelled from the spec: leaving the context of a [with] statement;
    [nullcontext()] leaves the model untouched. *)
Definition context_exit (cm : context_manager) (m : SentenceTransformer)
    : SentenceTransformer :=
  match cm with
  | NullContext => m
  | TruncateContext saved => set_truncate_dim saved m
  end.

(** Modelled from the spec: the truncation contract of a model, "truncating
    to dimension [d] yields embeddings of width [d]". *)
Definition honours_truncation (m : SentenceTransformer) : Prop :=
  ∀ d sentences show_progress_bar batch_size,
    ncols (st_embed m (Some d) sentences show_progress_bar batch_size) = d.

(** ** The evaluator *)

Record MSEEvaluator := mk_MSEEvaluator {
  truncate_dim : option nat;
  source_embeddings : ndarray;
  target_sentences : list string;
  show_progress_bar : bool;
  batch_size : Z;
  name : string;
  csv_file : string;
  csv_headers : list string;
  write_csv : bool;
  primary_metric : string
}.

Section Evaluator.
(** The dtype of the embeddings, and the separator the base class puts
    between the name of the evaluator and the name of a metric. *)
Variable dt : dtype.
Variable sep : string.

(** [MSEEvaluator.__init__] (lines 33-61).  [teacher_model] defaults to
    [None]; the teacher is returned with the state the constructor leaves
    it in. *)
Definition __init__ (source_sentences target_sentences : list string)
    (teacher_model : option SentenceTransformer) (show_progress_bar : bool)
    (batch_size : Z) (name : string) (write_csv : bool)
    (truncate_dim : option nat) : M (MSEEvaluator * SentenceTransformer) :=
  let! (teacher, cm) :=
    match truncate_dim, teacher_model with
    | None, Some t => ret (t, NullContext)
    | None, None => raise (AttributeError "NoneType" "encode")
    | Some d, Some t => ret (truncate_sentence_embeddings d t)
    | Some d, None => raise (AttributeError "NoneType" "truncate_sentence_embeddings")
    end in
  let! source_embeddings := encode teacher source_sentences show_progress_bar batch_size in
  let teacher := context_exit cm teacher in
  ret (mk_MSEEvaluator truncate_dim source_embeddings target_sentences
         show_progress_bar batch_size name
         ("mse_evaluation_" +:+ name +:+ "_results.csv")
         ["epoch"; "steps"; "MSE"] write_csv "negative_mse",
       teacher).

(** The [out_txt] of the log message (lines 64-72). *)
Definition out_txt (self : MSEEvaluator) (epoch steps : Z) : string :=
  let out_txt :=
    if bool_decide (epoch ≠ -1) then
      if bool_decide (steps = -1) then " after epoch " +:+ pretty epoch
      else " in epoch " +:+ pretty epoch +:+ " after " +:+ pretty steps +:+ " steps"
    else "" in
  match truncate_dim self with
  | Some d => out_txt +:+ " (truncated to " +:+ pretty d +:+ ")"
  | None => out_txt
  end.

(** Lines 74-80: the target sentences embedded by the evaluated model, in
    the truncation context when a dimension is configured. *)
Definition encode_target (self : MSEEvaluator) (model : SentenceTransformer)
    : M (ndarray * SentenceTransformer) :=
  let '(model, cm) :=
    match truncate_dim self with
    | None => (model, NullContext)
    | Some d => truncate_sentence_embeddings d model
    end in
  let! target_embeddings :=
    encode model (target_sentences self) (show_progress_bar self) (batch_size self) in
  ret (target_embeddings, context_exit cm model).

(** Lines 82-83: [mse = ((source - target) ** 2).mean(); mse *= 100]. *)
Definition compute_mse (source_embeddings target_embeddings : ndarray) : result float :=
  match np_sub dt source_embeddings target_embeddings with
  | Ok diff => Ok (fmul dt (np_mean dt (np_square dt diff)) (float_of_Z dt 100))
  | Raise e => Raise e
  end.

(** Lines 88-96: the CSV log. *)
Definition log_csv (self : MSEEvaluator) (output_path : option string)
    (epoch steps : Z) (mse : float) : M unit :=
  match output_path with
  | Some output_path =>
      if write_csv self then
        let csv_path := os_path_join output_path (csv_file self) in
        let! output_file_exists := os_path_isfile csv_path in
        let! _ := open_file csv_path (if output_file_exists then ModeAppend else ModeWrite) in
        let! _ := (if negb output_file_exists
                   then writerow csv_path (CellStr <$> csv_headers self)
                   else ret tt) in
        writerow csv_path [CellInt epoch; CellInt steps; CellFloat mse]
      else ret tt
  | None => ret tt
  end.

(** Modelled from the spec: [SentenceEvaluator.prefix_name_to_metrics] is
    not part of the source file; "the metric name is optionally prefixed
    with a configured label". *)
Definition prefix_name_to_metrics (metrics : gmap string float) (name : string)
    : gmap string float :=
  if bool_decide (name = "") then metrics
  else kmap (λ key, name +:+ sep +:+ key) metrics.

(** Modelled from the spec: [SentenceEvaluator.store_metrics_in_model_card_data]
    is not part of the source file; it "writes the metric into the evaluated
    model's persisted metadata". *)
Definition store_metrics_in_model_card_data (model : SentenceTransformer)
    (metrics : gmap string float) : SentenceTransformer :=
  set_card_metrics (metrics ∪ st_card_metrics model) model.

(** [MSEEvaluator.__call__] (lines 63-102).  The evaluator and the model
    are returned with the state the call leaves them in. *)
Definition __call__ (self : MSEEvaluator) (model : SentenceTransformer)
    (output_path : option string) (epoch steps : Z)
    : M (gmap string float * MSEEvaluator * SentenceTransformer) :=
  let out_txt := out_txt self epoch steps in
  let! (target_embeddings, model) := encode_target self model in
  let! mse := lift (compute_mse (source_embeddings self) target_embeddings) in
  let! _ := logger_info ("MSE evaluation (lower = better) on the " +:+ name self
                           +:+ " dataset" +:+ out_txt +:+ ":") in
  let! _ := logger_info_mse mse in
  let! _ := log_csv self output_path epoch steps mse in
  let metrics := {[ "negative_mse" := fneg mse ]} in
  let metrics := prefix_name_to_metrics metrics (name self) in
  let model := store_metrics_in_model_card_data model metrics in
  ret (metrics, self, model).

End Evaluator.

(** ** The MSE as the specification words it *)

Section Specification.
Variable dt : dtype.

Definition squared_difference (x y : float) : float :=
  let d := fsub dt x y in fmul dt d d.

(** The squared differences of the elements at the same position of two
    matrices, row by row. *)
Definition squared_differences (a b : ndarray) : list float :=
  concat (zip_with (zip_with squared_difference) (rows a) (rows b)).

(** [100 * mean((teacher_embeddings - model_embeddings)^2)] over all elements
    of two matrices of one shape, with the mean of numpy. *)
Definition spec_mse (teacher_embeddings model_embeddings : ndarray) : float :=
  fmul dt (float_of_Z dt 100)
    (np_mean_list dt (squared_differences teacher_embeddings model_embeddings)
       (np_size teacher_embeddings)).

End Specification.

(** ** Vocabulary of the statements *)

(** The truncation dimension an [encode] runs under: the configured one, or
    the one the model already has when none is configured. *)
Definition truncation_in_effect (truncate_dim : option nat)
    (m : SentenceTransformer) : option nat :=
  match truncate_dim with
  | Some d => Some d
  | None => st_truncate_dim m
  end.

(** The event of the one [encode] call of a [with] block of the evaluator. *)
Definition encode_event (truncate_dim : option nat) (m : SentenceTransformer)
    (sentences : list string) (show_progress_bar : bool) (batch_size : Z) : event :=
  EvEncode (st_id m) (truncation_in_effect truncate_dim m) sentences
    show_progress_bar batch_size.

(** The embeddings of the target sentences that [__call__] compares. *)
Definition target_embeddings (self : MSEEvaluator) (model : SentenceTransformer)
    : ndarray :=
  st_embed model (truncation_in_effect (truncate_dim self) model)
    (target_sentences self) (show_progress_bar self) (batch_size self).

Definition target_event (self : MSEEvaluator) (model : SentenceTransformer) : event :=
  encode_event (truncate_dim self) model (target_sentences self)
    (show_progress_bar self) (batch_size self).

(** The first log message of [__call__] (line 85). *)
Definition log_message (self : MSEEvaluator) (epoch steps : Z) : string :=
  "MSE evaluation (lower = better) on the " +:+ name self +:+ " dataset"
    +:+ out_txt self epoch steps +:+ ":".

(** The path of the CSV file of a call that logs (lines 88-89), if it
    does. *)
Definition csv_path (self : MSEEvaluator) (output_path : option string)
    : option string :=
  match output_path with
  | Some p => if write_csv self then Some (os_path_join p (csv_file self)) else None
  | None => None
  end.

(** The error the [open] of line 91 raises in a call, if the call gets there
    and the [open] fails. *)
Definition csv_fault (self : MSEEvaluator) (output_path : option string)
    (w : World) : option exn :=
  match csv_path self output_path with
  | Some path => (λ e, OSError e path) <$> open_fault w path
  | None => None
  end.

(** The key of the metric in the returned mapping. *)
Definition metric_key (sep name : string) : string :=
  if bool_decide (name = "") then "negative_mse"
  else name +:+ sep +:+ "negative_mse".

Definition is_file_event (e : event) : bool :=
  match e with EvOpen _ _ | EvWriteRow _ _ => true | _ => false end.

Definition is_encode_event (e : event) : bool :=
  match e with EvEncode _ _ _ _ _ => true | _ => false end.

(** The arguments of one invocation of the evaluator. *)
Record call_args := mk_call_args {
  ca_model : SentenceTransformer;
  ca_output_path : option string;
  ca_epoch : Z;
  ca_steps : Z
}.

(** A sequence of invocations of one evaluator; an invocation that raises
    leaves the evaluator as it was. *)
Fixpoint run_calls (dt : dtype) (sep : string) (self : MSEEvaluator)
    (calls : list call_args) (w : World) : MSEEvaluator * World :=
  match calls with
  | [] => (self, w)
  | c :: calls' =>
      match __call__ dt sep self (ca_model c) (ca_output_path c)
              (ca_epoch c) (ca_steps c) w with
      | (Ok (_, self', _), w') => run_calls dt sep self' calls' w'
      | (Raise _, w') => run_calls dt sep self calls' w'
      end
  end.

(** ** Example objects *)

(** A model that embeds a sentence as its length, repeated over the width:
    2 columns, or the truncation dimension in effect. *)
Definition length_model (id : nat) : SentenceTransformer :=
  mk_SentenceTransformer id None
    (λ truncate sentences _ _,
       let width := default 2%nat truncate in
       mk_ndarray (length sentences, width)
         (map (λ s, replicate width (float_of_nat float32 (String.length s)))
            sentences))
    ∅.

(** A world with no file and no directory but the current one, and a world
    whose only directory is ["out"]. *)
Definition empty_world : World := mk_World ∅ ∅ ∅ [].

Definition out_world : World := mk_World ∅ {["out"]} ∅ [].

(** A model whose embeddings overflow: every sentence is embedded as
    [[+inf]]. *)
Definition overflowing_model (id : nat) : SentenceTransformer :=
  mk_SentenceTransformer id None
    (λ _ sentences _ _,
       mk_ndarray (length sentences, 1%nat)
         (map (λ _, [S754_infinity false]) sentences))
    ∅.

(** Evaluators as the constructor returns them for [length_model 1] as the
    teacher: on two source and two target sentences under the name ["dev"];
    on no sentence at all; on one source and two target sentences. *)
Definition dev_evaluator : MSEEvaluator :=
  mk_MSEEvaluator None (st_embed (length_model 1) None ["ab"; "c"] false 32)
    ["ab"; "cde"] false 32 "dev" "mse_evaluation_dev_results.csv"
    ["epoch"; "steps"; "MSE"] true "negative_mse".

Definition empty_evaluator : MSEEvaluator :=
  mk_MSEEvaluator None (st_embed (length_model 1) None [] false 32)
    [] false 32 "" "mse_evaluation__results.csv"
    ["epoch"; "steps"; "MSE"] true "negative_mse".

Definition single_source_evaluator : MSEEvaluator :=
  mk_MSEEvaluator None (st_embed (length_model 1) None ["a"] false 32)
    ["b"; "cd"] false 32 "" "mse_evaluation__results.csv"
    ["epoch"; "steps"; "MSE"] true "negative_mse".

(** The float32 numbers 200 and 50. *)
Definition f32_200 : float := S754_finite false 13107200 (-16).
Definition f32_50 : float := S754_finite false 13107200 (-18).

(** ** Runs of several calls: what reaches a CSV file *)

(** The [description] property of the evaluator (lines 104-106). *)
Definition description (self : MSEEvaluator) : string := "Knowledge Distillation".

(** The data row a call hands to the CSV writer (line 96), for a call that
    gets as far: one whose subtraction does not raise. *)
Definition data_row (dt : dtype) (self : MSEEvaluator) (c : call_args)
    : option (list csv_cell) :=
  match compute_mse dt (source_embeddings self)
          (target_embeddings self (ca_model c)) with
  | Ok mse => Some [CellInt (ca_epoch c); CellInt (ca_steps c); CellFloat mse]
  | Raise _ => None
  end.

(** Whether a call of [self] in the world [w] logs to the file at path
    [q]: the guard of line 88, the path of line 89 and an [open] (line 91)
    that does not fail. *)
Definition logs_to (self : MSEEvaluator) (q : string) (w : World)
    (c : call_args) : bool :=
  write_csv self &&
  match ca_output_path c with
  | Some p => bool_decide (os_path_join p (csv_file self) = q)
              && bool_decide (open_fault w q = None)
  | None => false
  end.

(** The data rows a sequence of calls that starts in the world [w] writes
    to the file at [q], in the order of the calls. *)
Definition logged_rows (dt : dtype) (self : MSEEvaluator) (q : string)
    (w : World) (calls : list call_args) : list (list csv_cell) :=
  omap (data_row dt self) (List.filter (logs_to self q w) calls).

(** Two calls of [dev_evaluator] that compute an MSE around one whose model
    embeds into a width that does not broadcast, all with the output path
    ["out"]. *)
Definition wide_model (id : nat) : SentenceTransformer :=
  mk_SentenceTransformer id None
    (λ _ sentences _ _,
       mk_ndarray (length sentences, 3%nat)
         (map (λ s, replicate 3 (float_of_nat float32 (String.length s)))
            sentences))
    ∅.

Definition dev_calls : list call_args :=
  [mk_call_args (length_model 2) (Some "out") 1 (-1);
   mk_call_args (wide_model 3) (Some "out") 1 250;
   mk_call_args (length_model 4) (Some "out") 2 (-1)].

(** A file system that already holds a CSV file of [dev_evaluator] and
    another file, both in the directory ["out"]. *)
Definition used_world : World :=
  mk_World
    (<["out/mse_evaluation_dev_results.csv" :=
         [[CellStr "epoch"; CellStr "steps"; CellStr "MSE"];
          [CellInt 0; CellInt (-1); CellFloat f32_50]]]>
       (<["out/notes.csv" := [[CellStr "kept"]]]> ∅))
    {["out"]} ∅ [].

(** A world in which the directory ["out"] exists and the CSV file of
    [dev_evaluator] in it may not be opened. *)
Definition locked_world : World :=
  mk_World ∅ {["out"]}
    {["out/mse_evaluation_dev_results.csv" := PermissionError]} [].

(** An embedding matrix with a [NaN] element, and one of the same shape
    without. *)
Definition nan_matrix : ndarray :=
  mk_ndarray (2, 2)%nat
    [[float_of_nat float32 1; float_of_nat float32 2];
     [S754_nan; float_of_nat float32 3]].

Definition plain_matrix : ndarray :=
  mk_ndarray (2, 2)%nat
    [[float_of_nat float32 1; float_of_nat float32 1];
     [float_of_nat float32 2; float_of_nat float32 5]].

(** A second evaluator of the same teacher, under the name ["test"]. *)
Definition test_evaluator : MSEEvaluator :=
  mk_MSEEvaluator None (st_embed (length_model 1) None ["ab"; "c"] false 32)
    ["ab"; "cde"] false 32 "test" "mse_evaluation_test_results.csv"
    ["epoch"; "steps"; "MSE"] true "negative_mse".

(** * Verification *)

(** ** Facts on rounding and on the float operations, for any format *)

Section SpecFloatFacts.
Variables prec emax : Z.

(** A rounded result carries the sign it was given, unless it is [NaN]. *)
Lemma binary_round_aux_sign sx mx ex lx :
  let r := binary_round_aux prec emax sx mx ex lx in
  is_nan r = true ∨ sign_bit r = sx.
Proof.
  unfold binary_round_aux.
  destruct (shr_fexp prec emax mx ex lx) as [mrs' e'].
  destruct (shr_fexp prec emax _ e' loc_Exact) as [mrs'' e''].
  destruct (shr_m mrs''); [right; reflexivity | | left; reflexivity].
  destruct (_ <=? _); right; reflexivity.
Qed.

Lemma binary_round_aux_positive mx ex lx :
  nan_or_positive (binary_round_aux prec emax false mx ex lx) = true.
Proof.
  unfold nan_or_positive.
  destruct (binary_round_aux_sign false mx ex lx) as [H | H].
  - destruct (binary_round_aux _ _ _ _ _ _); try discriminate H; reflexivity.
  - simpl in H. rewrite H. reflexivity.
Qed.

Lemma binary_normalize_positive m e :
  0 <= m → nan_or_positive (binary_normalize prec emax m e false) = true.
Proof.
  destruct m as [|p|p]; intros Hm; [reflexivity | | lia].
  unfold binary_normalize, binary_round.
  destruct (shl_align _ _ _). apply binary_round_aux_positive.
Qed.

(** A square is never negative. *)
Lemma SFmul_square_positive x : nan_or_positive (SFmul prec emax x x) = true.
Proof.
  destruct x as [s|s| |s m e]; simpl; rewrite ?xorb_nilpotent; try reflexivity.
  apply binary_round_aux_positive.
Qed.

Lemma SFadd_positive x y :
  nan_or_positive x = true → nan_or_positive y = true →
  nan_or_positive (SFadd prec emax x y) = true.
Proof.
  unfold nan_or_positive.
  destruct x as [[]|[]| |[] mx ex], y as [[]|[]| |[] my ey];
    simpl; intros Hx Hy; try discriminate; try reflexivity.
  apply (binary_normalize_positive (Z.pos _ + Z.pos _)). lia.
Qed.

Lemma SFmul_positive x y :
  nan_or_positive x = true → nan_or_positive y = true →
  nan_or_positive (SFmul prec emax x y) = true.
Proof.
  unfold nan_or_positive.
  destruct x as [[]|[]| |[] mx ex], y as [[]|[]| |[] my ey];
    simpl; intros Hx Hy; try discriminate; try reflexivity.
  apply binary_round_aux_positive.
Qed.

Lemma SFdiv_positive x y :
  nan_or_positive x = true → nan_or_positive y = true →
  nan_or_positive (SFdiv prec emax x y) = true.
Proof.
  unfold nan_or_positive.
  destruct x as [[]|[]| |[] mx ex], y as [[]|[]| |[] my ey];
    simpl; intros Hx Hy; try discriminate; try reflexivity.
  destruct (SFdiv_core_binary _ _ _ _ _ _) as [[mz ez] lz].
  apply binary_round_aux_positive.
Qed.

Lemma fold_left_SFadd_positive l acc :
  nan_or_positive acc = true →
  Forall (λ x, nan_or_positive x = true) l →
  nan_or_positive (fold_left (SFadd prec emax) l acc) = true.
Proof.
  intros Hacc Hl. revert acc Hacc.
  induction Hl as [|x l Hx _ IH]; intros acc Hacc; simpl; [assumption|].
  apply IH. now apply SFadd_positive.
Qed.

(** The order of the factors does not matter. *)
Lemma SFmul_comm x y : SFmul prec emax x y = SFmul prec emax y x.
Proof.
  destruct x as [sx|sx| |sx mx ex], y as [sy|sy| |sy my ey]; simpl;
    rewrite ?(xorb_comm sx sy); try reflexivity.
  now rewrite Pos.mul_comm, Z.add_comm.
Qed.

(** A number that carries a clear sign bit compares as non-negative, and
    its opposite as non-positive. *)
Lemma nan_or_positive_spec x :
  nan_or_positive x = true →
  x = S754_nan ∨ (SFleb pos_zero x = true ∧ SFleb (SFopp x) pos_zero = true).
Proof.
  unfold nan_or_positive.
  destruct x as [[]|[]| |[] m e]; simpl; intros H; try discriminate;
    (left; reflexivity) || (right; split; reflexivity).
Qed.

End SpecFloatFacts.

(** ** Rounding a positive integer never yields a zero or [NaN] *)

Section RoundingPositive.
Variables prec emax : Z.
Hypothesis prec_gt_0 : 0 < prec.
Hypothesis prec_lt_emax : prec < emax.

Lemma shr_m_shr_1 mrs : 0 <= shr_m mrs → shr_m (shr_1 mrs) = shr_m mrs / 2.
Proof.
  destruct mrs as [m r s]. simpl. intros Hm.
  rewrite <- Z.div2_div.
  destruct m as [|[p|p|]|p]; try reflexivity; lia.
Qed.

Lemma shr_m_iter_shr_1 n mrs :
  0 <= shr_m mrs →
  shr_m (SpecFloat.iter_pos shr_1 n mrs) = shr_m mrs / 2 ^ Z.pos n.
Proof.
  revert mrs. induction n as [n IH|n IH|]; intros mrs Hm; simpl SpecFloat.iter_pos.
  - assert (H1 : 0 <= shr_m (shr_1 mrs)).
    { rewrite shr_m_shr_1 by assumption. apply Z.div_pos; lia. }
    assert (H2 : 0 <= shr_m (SpecFloat.iter_pos shr_1 n (shr_1 mrs))).
    { rewrite IH by assumption. apply Z.div_pos; lia. }
    rewrite IH, IH, shr_m_shr_1 by assumption.
    rewrite !Z.div_div by lia. f_equal.
    rewrite <- Z.pow_add_r, <- Z.pow_succ_r by lia. f_equal. lia.
  - assert (H2 : 0 <= shr_m (SpecFloat.iter_pos shr_1 n mrs)).
    { rewrite IH by assumption. apply Z.div_pos; lia. }
    rewrite IH, IH by assumption.
    rewrite Z.div_div by lia. f_equal.
    rewrite <- Z.pow_add_r by lia. f_equal. lia.
  - rewrite shr_m_shr_1 by assumption. reflexivity.
Qed.

Lemma digits2_pos_size p : digits2_pos p = Pos.size p.
Proof. induction p; simpl; congruence. Qed.

Lemma digits2_pos_lower p : 2 ^ (Z.pos (digits2_pos p) - 1) <= Z.pos p.
Proof.
  rewrite digits2_pos_size.
  pose proof (Pos.size_le p) as H.
  apply Pos2Z.pos_le_pos in H.
  rewrite Pos2Z.inj_pow in H.
  replace (Z.pos (Pos.size p)) with (Z.succ (Z.pos (Pos.size p) - 1)) in H by lia.
  rewrite Z.pow_succ_r in H by lia. lia.
Qed.

(** The mantissa of a number that lies above the smallest exponent stays
    positive when it is shifted to its canonical exponent. *)
Lemma shr_fexp_positive q e l :
  2 ^ (emin prec emax - e) <= Z.pos q →
  ∃ q' mrs' e',
    shr_fexp prec emax (Z.pos q) e l = (mrs', e') ∧ shr_m mrs' = Z.pos q' ∧
    2 ^ (emin prec emax - e') <= Z.pos q'.
Proof.
  intros Hq. unfold shr_fexp, shr.
  set (mrs := shr_record_of_loc (Z.pos q) l).
  assert (Hmrs : shr_m mrs = Z.pos q) by (subst mrs; destruct l as [|[]]; reflexivity).
  set (n := fexp prec emax (Zdigits2 (Z.pos q) + e) - e).
  destruct n as [|n'|n'] eqn:Hn.
  - exists q, mrs, e. auto.
  - assert (Hle : 2 ^ Z.pos n' <= Z.pos q).
    { unfold fexp in n. simpl Zdigits2 in n.
      pose proof (digits2_pos_lower q) as Hd.
      destruct (Z.max_spec (Z.pos (digits2_pos q) + e - prec) (emin prec emax)) as [[_ Hmax]|[_ Hmax]].
      - replace (Z.pos n') with (emin prec emax - e) by lia. assumption.
      - etransitivity; [|exact Hd]. apply Z.pow_le_mono_r; lia. }
    assert (Hpos : 0 < shr_m (SpecFloat.iter_pos shr_1 n' mrs)).
    { rewrite shr_m_iter_shr_1 by (rewrite Hmrs; lia).
      rewrite Hmrs. apply Z.div_str_pos. lia. }
    destruct (shr_m (SpecFloat.iter_pos shr_1 n' mrs)) as [|q'|q'] eqn:Hq'; try lia.
    exists q', (SpecFloat.iter_pos shr_1 n' mrs), (e + Z.pos n'). repeat split; auto.
    assert (Hemin : emin prec emax - (e + Z.pos n') <= 0).
    { unfold fexp in n. lia. }
    destruct (Z.eq_dec (emin prec emax - (e + Z.pos n')) 0) as [->|Hne]; [simpl; lia|].
    rewrite Z.pow_neg_r by lia. lia.
  - exists q, mrs, e. auto.
Qed.

Lemma round_nearest_even_positive q l :
  ∃ q', round_nearest_even (Z.pos q) l = Z.pos q' ∧ Z.pos q <= Z.pos q'.
Proof.
  unfold round_nearest_even.
  destruct l as [|[]]; try (exists q; split; [reflexivity | lia]).
  - destruct (Z.even _); [exists q | exists (q + 1)%positive]; split; (reflexivity || lia).
  - exists (q + 1)%positive. split; [reflexivity | lia].
Qed.

Lemma binary_round_aux_nonzero s q e l :
  2 ^ (emin prec emax - e) <= Z.pos q →
  is_nonzero_number (binary_round_aux prec emax s (Z.pos q) e l) = true.
Proof.
  intros Hq. unfold binary_round_aux.
  destruct (shr_fexp_positive q e l Hq) as (q1 & mrs1 & e1 & -> & Hm1 & Hq1).
  rewrite Hm1.
  destruct (round_nearest_even_positive q1 (loc_of_shr_record mrs1)) as (q2 & -> & Hq2).
  destruct (shr_fexp_positive q2 e1 loc_Exact) as (q3 & mrs3 & e3 & -> & -> & _); [lia|].
  destruct (_ <=? _); reflexivity.
Qed.

Lemma binary_round_nonzero s p :
  is_nonzero_number (binary_round prec emax s p 0) = true.
Proof.
  unfold binary_round, shl_align.
  set (ex' := fexp prec emax (Z.pos (digits2_pos p) + 0)).
  assert (Hex : emin prec emax <= ex') by (subst ex'; unfold fexp; lia).
  assert (Hemin : emin prec emax <= 0) by (unfold emin; lia).
  destruct (ex' - 0) as [|d|d] eqn:Hd; apply binary_round_aux_nonzero.
  - rewrite Z.sub_0_r. destruct (Z.eq_dec (emin prec emax) 0) as [->|]; [simpl; lia|].
    rewrite Z.pow_neg_r by lia. lia.
  - rewrite Z.sub_0_r. destruct (Z.eq_dec (emin prec emax) 0) as [->|]; [simpl; lia|].
    rewrite Z.pow_neg_r by lia. lia.
  - destruct (Z.eq_dec (emin prec emax - ex') 0) as [->|]; [simpl; lia|].
    rewrite Z.pow_neg_r by lia. lia.
Qed.

(** The float of a positive integer is a positive number or [+inf]. *)
Lemma binary_normalize_nonzero n :
  0 < n →
  let x := binary_normalize prec emax n 0 false in
  is_nonzero_number x = true ∧ sign_bit x = false.
Proof.
  intros Hn. destruct n as [|p|p]; try lia. simpl. split.
  - apply binary_round_nonzero.
  - pose proof (binary_normalize_positive prec emax (Z.pos p) 0) as H.
    unfold nan_or_positive in H. simpl in H.
    destruct (binary_round _ _ _ _ _); simpl in *; try apply negb_true_iff, H; lia.
Qed.

End RoundingPositive.

(** ** Facts on the operations of a dtype *)

Lemma prec_of_gt_0 dt : 0 < prec_of dt.
Proof. destruct dt; reflexivity. Qed.

Lemma prec_of_lt_emax_of dt : prec_of dt < emax_of dt.
Proof. destruct dt; reflexivity. Qed.

Lemma fsub_diag dt x : is_finite x = true → fsub dt x x = pos_zero.
Proof.
  unfold fsub. destruct x as [[]| | |s m e]; simpl; intros H; try discriminate;
    try reflexivity.
  now rewrite Z.sub_diag.
Qed.

Lemma fdiv_pos_zero dt c :
  is_nonzero_number c = true → sign_bit c = false → fdiv dt pos_zero c = pos_zero.
Proof. destruct c as [[]|[]| |[] m e]; simpl; intros; try discriminate; reflexivity. Qed.

(** The element count of a non-empty array is a positive number. *)
Lemma float_of_nat_nonzero dt n :
  (0 < n)%nat →
  is_nonzero_number (float_of_nat dt n) = true ∧ sign_bit (float_of_nat dt n) = false.
Proof.
  intros Hn. unfold float_of_nat, float_of_Z.
  apply binary_normalize_nonzero;
    [apply prec_of_gt_0 | apply prec_of_lt_emax_of | lia].
Qed.

Lemma float_of_nat_positive dt n : nan_or_positive (float_of_nat dt n) = true.
Proof. apply binary_normalize_positive. lia. Qed.

(** 100 is a finite positive number of every dtype. *)
Lemma float_of_Z_100 dt :
  ∃ m e, float_of_Z dt 100 = S754_finite false m e.
Proof. destruct dt; vm_compute; eauto. Qed.

Lemma fmul_pos_zero_100 dt : fmul dt pos_zero (float_of_Z dt 100) = pos_zero.
Proof. destruct (float_of_Z_100 dt) as (m & e & ->). reflexivity. Qed.

Lemma fmul_comm dt x y : fmul dt x y = fmul dt y x.
Proof. apply SFmul_comm. Qed.

(** ** Facts on broadcasting *)

Lemma broadcast_dim_diag n : broadcast_dim n n = Some n.
Proof. unfold broadcast_dim. now rewrite Nat.eqb_refl. Qed.

Lemma broadcast_shapes_diag s : broadcast_shapes s s = Some s.
Proof. destruct s. unfold broadcast_shapes. simpl. now rewrite !broadcast_dim_diag. Qed.

Lemma broadcast_dim_None m n :
  broadcast_dim m n = None ↔ m ≠ n ∧ m ≠ 1%nat ∧ n ≠ 1%nat.
Proof.
  unfold broadcast_dim.
  destruct (Nat.eqb_spec m n), (Nat.eqb_spec m 1), (Nat.eqb_spec n 1);
    split; intros H; try discriminate; try tauto; try lia.
Qed.

Lemma broadcast_shapes_None s t :
  broadcast_shapes s t = None ↔
  (fst s ≠ fst t ∧ fst s ≠ 1%nat ∧ fst t ≠ 1%nat) ∨
  (snd s ≠ snd t ∧ snd s ≠ 1%nat ∧ snd t ≠ 1%nat).
Proof.
  rewrite <- !broadcast_dim_None. unfold broadcast_shapes.
  destruct (broadcast_dim (fst s) (fst t)), (broadcast_dim (snd s) (snd t));
    split; intros H; try discriminate; try tauto; destruct H; discriminate.
Qed.

Lemma stretch_same {A} (l : list A) : stretch (length l) l = l.
Proof. unfold stretch. now rewrite Nat.eqb_refl. Qed.

Lemma Forall_stretch {A} (P : A → Prop) n l : Forall P l → Forall P (stretch n l).
Proof.
  intros H. unfold stretch. destruct (_ =? _)%nat; [assumption|].
  destruct l as [|x [|]]; try assumption.
  apply Forall_replicate. now inversion H.
Qed.

(** Broadcasting a well-formed array to its own shape is the identity. *)
Lemma broadcast_to_same a : wf_ndarray a → broadcast_to (shape a) a = a.
Proof.
  destruct a as [[r c] rs]. unfold wf_ndarray, broadcast_to, nrows, ncols.
  simpl. intros [Hr Hc]. f_equal.
  assert (Hmap : map (stretch c) rs = rs).
  { clear Hr. induction Hc as [|x l Hx _ IH]; simpl; [reflexivity|].
    rewrite IH. f_equal. subst c. apply stretch_same. }
  rewrite Hmap. subst r. apply stretch_same.
Qed.

(** ** Facts on the summation of numpy, over any addition *)

Section PairwiseFacts.
Context {A : Type}.
Variable add : A → A → A.
Variable zero : A.

(** The split of a long input leaves two shorter, non-empty parts. *)
Lemma pairwise_split_bounds n :
  (128 < n → 0 < split_point n < n)%nat.
Proof.
  intros Hn. unfold split_point.
  pose proof (Nat.div_mod_eq n 2) as H2.
  pose proof (Nat.mod_upper_bound n 2) as H2'.
  pose proof (Nat.mod_upper_bound (n / 2) 8) as H8.
  lia.
Qed.

(** Fuel beyond the length of the list changes nothing. *)
Lemma pairwise_sum_fuel f1 : ∀ f2 l,
  (length l ≤ f1 → length l ≤ f2 →
   pairwise_sum add zero f1 l = pairwise_sum add zero f2 l)%nat.
Proof.
  induction f1 as [|f1 IH]; intros f2 l H1 H2.
  - destruct l; [|simpl in H1; lia]. now destruct f2.
  - destruct f2 as [|f2]; [destruct l; [reflexivity | simpl in H2; lia]|].
    cbn [pairwise_sum]. destruct (Nat.ltb_spec (length l) 8); [reflexivity|].
    destruct (Nat.leb_spec (length l) 128); [reflexivity|].
    pose proof (pairwise_split_bounds (length l) ltac:(lia)) as Hb.
    rewrite (IH f2 (take _ l)), (IH f2 (drop _ l));
      rewrite ?length_take, ?length_drop; try lia.
    reflexivity.
Qed.

Lemma pairwise_sum_S fuel l :
  pairwise_sum add zero (S fuel) l
  = if (length l <? 8)%nat then sum_loop add zero l
    else if (length l <=? 128)%nat then sum_block add zero l
    else add (pairwise_sum add zero fuel (take (split_point (length l)) l))
             (pairwise_sum add zero fuel (drop (split_point (length l)) l)).
Proof. reflexivity. Qed.

(** The recursion equation of the C function, for the fuel the model
    gives it. *)
Lemma pairwise_sum_unfold l :
  pairwise_sum add zero (length l) l
  = if (length l <? 8)%nat then sum_loop add zero l
    else if (length l <=? 128)%nat then sum_block add zero l
    else let n2 := split_point (length l) in
         add (pairwise_sum add zero (length (take n2 l)) (take n2 l))
             (pairwise_sum add zero (length (drop n2 l)) (drop n2 l)).
Proof.
  destruct l as [|a l]; [reflexivity|].
  change (length (a :: l)) with (S (length l)) at 1.
  rewrite pairwise_sum_S.
  destruct (Nat.ltb_spec (length (a :: l)) 8); [reflexivity|].
  destruct (Nat.leb_spec (length (a :: l)) 128); [reflexivity|].
  pose proof (pairwise_split_bounds (length (a :: l)) ltac:(lia)) as Hb.
  cbv zeta. f_equal; apply pairwise_sum_fuel;
    rewrite ?length_take, ?length_drop; cbn [length] in *; lia.
Qed.

Section Closed.
(** A property of the elements that additions keep is a property of the
    sum. *)
Variable Q : A → Prop.
Hypothesis Q_zero : Q zero.
Hypothesis Q_add : ∀ x y, Q x → Q y → Q (add x y).

Lemma sum_loop_closed l : ∀ res, Q res → Forall Q l → Q (sum_loop add res l).
Proof.
  unfold sum_loop. induction l as [|x l IH]; intros res Hres Hl; simpl; [assumption|].
  apply Forall_cons in Hl as [Hx Hl]. apply IH; auto.
Qed.

Lemma zip_with_closed r : ∀ g,
  Forall Q r → Forall Q g → Forall Q (zip_with add r g).
Proof.
  induction r as [|x r IH]; intros [|y g] Hr Hg; simpl; try constructor.
  - apply Forall_cons in Hr as [Hx _]. apply Forall_cons in Hg as [Hy _]. auto.
  - apply Forall_cons in Hr as [_ Hr]. apply Forall_cons in Hg as [_ Hg]. auto.
Qed.

Lemma accumulate8_closed n : ∀ l r,
  (length l ≤ n)%nat → Forall Q r → Forall Q l →
  Forall Q (accumulate8 add r l).1 ∧ Forall Q (accumulate8 add r l).2.
Proof.
  induction n as [|n IH]; intros l r Hn Hr Hl.
  - destruct l; [simpl; auto | simpl in Hn; lia].
  - destruct l as [|a0 [|a1 [|a2 [|a3 [|a4 [|a5 [|a6 [|a7 l']]]]]]]];
      try (simpl; auto; fail).
    simpl. apply IH.
    + simpl in Hn. lia.
    + apply zip_with_closed; [assumption|].
      repeat (apply Forall_cons in Hl as [? Hl]). repeat constructor; assumption.
    + repeat (apply Forall_cons in Hl as [_ Hl]). assumption.
Qed.

Lemma tree8_closed r : Forall Q r → Q (tree8 add zero r).
Proof.
  intros Hr.
  destruct r as [|r0 [|r1 [|r2 [|r3 [|r4 [|r5 [|r6 [|r7 [|r8 r]]]]]]]]];
    simpl; try assumption.
  repeat (apply Forall_cons in Hr as [? Hr]). auto 10.
Qed.

Lemma sum_block_closed l : Forall Q l → Q (sum_block add zero l).
Proof.
  intros Hl. unfold sum_block.
  destruct (accumulate8_closed (length (drop 8 l)) (drop 8 l) (take 8 l))
    as [Hr Hrest]; [lia | now apply Forall_take | now apply Forall_drop |].
  destruct (accumulate8 add (take 8 l) (drop 8 l)) as [r rest]. simpl in *.
  apply sum_loop_closed; [now apply tree8_closed | assumption].
Qed.

Lemma pairwise_sum_closed fuel : ∀ l,
  Forall Q l → Q (pairwise_sum add zero fuel l).
Proof.
  induction fuel as [|fuel IH]; intros l Hl; cbn [pairwise_sum];
    destruct (_ <? _)%nat; try (now apply sum_loop_closed);
    destruct (_ <=? _)%nat; try (now apply sum_block_closed).
  apply Q_add; apply IH; [now apply Forall_take | now apply Forall_drop].
Qed.

(** A property [P] of the accumulator that adding a [Q] keeps is a property
    of the reduction. *)
Lemma reduce_chunks_closed (P : A → Prop) fuel chunk :
  (∀ x y, P x → Q y → P (add x y)) →
  ∀ l acc, P acc → Forall Q l → P (reduce_chunks add zero fuel chunk acc l).
Proof.
  intros HP. induction fuel as [|fuel IH]; intros l acc Hacc Hl.
  - now destruct l.
  - destruct l as [|x l]; [assumption|]. cbn [reduce_chunks].
    apply IH; [|now apply Forall_drop].
    apply HP; [assumption|]. apply pairwise_sum_closed. now apply Forall_take.
Qed.

End Closed.

Section Taint.
(** A property that every addition inherits from either operand (as being
    [NaN]) goes from any element to the sum: no element is left out. *)
Variable T : A → Prop.
Hypothesis T_add : ∀ x y, T x ∨ T y → T (add x y).

Lemma sum_loop_taint l : ∀ res, T res ∨ Exists T l → T (sum_loop add res l).
Proof.
  unfold sum_loop. induction l as [|x l IH]; intros res H; simpl.
  - destruct H as [H | H]; [assumption | inversion H].
  - apply IH. destruct H as [H | H]; [left; auto|].
    apply Exists_cons in H as [H | H]; [left; auto | right; assumption].
Qed.

Lemma zip_with_taint r : ∀ g,
  length r = length g → Exists T r ∨ Exists T g → Exists T (zip_with add r g).
Proof.
  induction r as [|x r IH]; intros [|y g] Hlen H; simpl in *; try discriminate.
  - destruct H as [H | H]; inversion H.
  - injection Hlen as Hlen. apply Exists_cons.
    destruct H as [H | H]; apply Exists_cons in H as [H | H]; auto.
Qed.

Lemma accumulate8_taint n : ∀ l r,
  (length l ≤ n)%nat → length r = 8%nat → Exists T r ∨ Exists T l →
  length (accumulate8 add r l).1 = 8%nat
  ∧ (Exists T (accumulate8 add r l).1 ∨ Exists T (accumulate8 add r l).2).
Proof.
  induction n as [|n IH]; intros l r Hn Hr H.
  - destruct l; [simpl; auto | simpl in Hn; lia].
  - destruct l as [|a0 [|a1 [|a2 [|a3 [|a4 [|a5 [|a6 [|a7 l']]]]]]]];
      try (simpl; auto; fail).
    simpl. apply IH.
    + simpl in Hn. lia.
    + rewrite length_zip_with, Hr. reflexivity.
    + destruct H as [H | H].
      * left. apply zip_with_taint; [now rewrite Hr | now left].
      * change (a0 :: a1 :: a2 :: a3 :: a4 :: a5 :: a6 :: a7 :: l')
          with ([a0; a1; a2; a3; a4; a5; a6; a7] ++ l') in H.
        apply Exists_app in H as [H | H]; [left | now right].
        apply zip_with_taint; [now rewrite Hr | now right].
Qed.

Lemma tree8_taint r : length r = 8%nat → Exists T r → T (tree8 add zero r).
Proof.
  intros Hlen Hr.
  destruct r as [|r0 [|r1 [|r2 [|r3 [|r4 [|r5 [|r6 [|r7 [|r8 r]]]]]]]]];
    try discriminate Hlen. simpl.
  repeat (apply Exists_cons in Hr as [Hr | Hr]; [auto 10|]). inversion Hr.
Qed.

Lemma sum_block_taint l :
  (8 ≤ length l)%nat → Exists T l → T (sum_block add zero l).
Proof.
  intros Hlen Hl. unfold sum_block.
  destruct (accumulate8_taint (length (drop 8 l)) (drop 8 l) (take 8 l))
    as [Hr H]; [lia | rewrite length_take; lia | |].
  { rewrite <- (take_drop 8 l) in Hl. now apply Exists_app in Hl. }
  destruct (accumulate8 add (take 8 l) (drop 8 l)) as [r rest]. simpl in *.
  apply sum_loop_taint. destruct H as [H | H]; [left | now right].
  now apply tree8_taint.
Qed.

Lemma pairwise_sum_taint fuel : ∀ l,
  Exists T l → T (pairwise_sum add zero fuel l).
Proof.
  induction fuel as [|fuel IH]; intros l Hl; cbn [pairwise_sum];
    destruct (Nat.ltb_spec (length l) 8);
    try (apply sum_loop_taint; now right);
    destruct (_ <=? _)%nat; try (now apply sum_block_taint).
  apply T_add. rewrite <- (take_drop (split_point (length l)) l) in Hl.
  apply Exists_app in Hl as [Hl | Hl]; [left | right]; now apply IH.
Qed.

Lemma reduce_chunks_taint fuel chunk : ∀ l acc,
  (length l ≤ fuel)%nat → (0 < chunk)%nat → T acc ∨ Exists T l →
  T (reduce_chunks add zero fuel chunk acc l).
Proof.
  induction fuel as [|fuel IH]; intros l acc Hfuel Hchunk H.
  - destruct l; [|simpl in Hfuel; lia].
    destruct H as [H | H]; [assumption | inversion H].
  - destruct l as [|x l]; [destruct H as [H | H]; [assumption | inversion H]|].
    cbn [reduce_chunks]. apply IH; [|assumption|].
    + rewrite length_drop. simpl in *. lia.
    + destruct H as [H | H]; [left; auto|].
      rewrite <- (take_drop chunk (x :: l)) in H.
      apply Exists_app in H as [H | H]; [left | now right].
      apply T_add. right. now apply pairwise_sum_taint.
Qed.

End Taint.

End PairwiseFacts.

(** ** Facts on casts and on the mean of numpy *)

Lemma cast_float_positive from to x :
  nan_or_positive x = true → nan_or_positive (cast_float from to x) = true.
Proof.
  unfold cast_float. destruct (dtype_eqb from to); [auto|].
  destruct x as [s|s| |s m e]; auto.
  unfold nan_or_positive. simpl. intros ->%negb_true_iff.
  unfold binary_round. destruct (shl_align _ _ _).
  apply binary_round_aux_positive.
Qed.

Lemma cast_float_zero from to s : cast_float from to (S754_zero s) = S754_zero s.
Proof. unfold cast_float. now destruct (dtype_eqb from to). Qed.

Lemma cast_float_nan from to : cast_float from to S754_nan = S754_nan.
Proof. unfold cast_float. now destruct (dtype_eqb from to). Qed.

Lemma nan_or_positive_nonneg x : nan_or_positive x = true → nonneg_or_nan x = true.
Proof. now destruct x. Qed.

Section SpecFloatSums.
Variables prec emax : Z.

Lemma SFadd_nonneg x y :
  nonneg_or_nan x = true → nonneg_or_nan y = true →
  nonneg_or_nan (SFadd prec emax x y) = true.
Proof.
  destruct x as [[]|[]| |[] mx ex], y as [[]|[]| |[] my ey];
    simpl; intros Hx Hy; try discriminate; try reflexivity.
  apply nan_or_positive_nonneg.
  apply (binary_normalize_positive _ _ (Z.pos _ + Z.pos _)). lia.
Qed.

Lemma SFadd_positive_nonneg x y :
  nan_or_positive x = true → nonneg_or_nan y = true →
  nan_or_positive (SFadd prec emax x y) = true.
Proof.
  destruct x as [[]|[]| |[] mx ex], y as [[]|[]| |[] my ey];
    simpl; intros Hx Hy; try discriminate; try reflexivity.
  apply (binary_normalize_positive _ _ (Z.pos _ + Z.pos _)). lia.
Qed.

Lemma SFadd_zero x y :
  is_zero x = true → is_zero y = true → is_zero (SFadd prec emax x y) = true.
Proof.
  destruct x as [[]| | |], y as [[]| | |]; simpl; intros; auto; discriminate.
Qed.

Lemma SFadd_pos_zero_zero x y :
  x = pos_zero → is_zero y = true → SFadd prec emax x y = pos_zero.
Proof. intros ->. destruct y as [[]| | |]; simpl; auto; discriminate. Qed.

Lemma SFadd_nan x y :
  x = S754_nan ∨ y = S754_nan → SFadd prec emax x y = S754_nan.
Proof. intros [-> | ->]; [reflexivity | now destruct x]. Qed.

End SpecFloatSums.

Section MeanFacts.
Variable dt : dtype.

(** The sum and the mean of numbers that are [NaN] or carry a clear sign
    bit are such numbers. *)
Lemma np_sum_list_positive l :
  Forall (λ x, nan_or_positive x = true) l →
  nan_or_positive (np_sum_list dt l) = true.
Proof.
  intros Hl. unfold np_sum_list.
  apply (reduce_chunks_closed (SFadd _ _) neg_zero (λ x, nonneg_or_nan x = true)
           eq_refl (SFadd_nonneg _ _) (λ x, nan_or_positive x = true)).
  - apply SFadd_positive_nonneg.
  - reflexivity.
  - apply Forall_map. eapply Forall_impl; [exact Hl|]. simpl.
    intros x Hx. now apply nan_or_positive_nonneg, cast_float_positive.
Qed.

Lemma np_mean_list_positive l count :
  Forall (λ x, nan_or_positive x = true) l →
  nan_or_positive (np_mean_list dt l count) = true.
Proof.
  intros Hl. unfold np_mean_list.
  apply cast_float_positive, SFdiv_positive.
  - now apply cast_float_positive, np_sum_list_positive.
  - apply binary_normalize_positive. lia.
Qed.

(** The sum of zeros of any sign is [+0.0], and so is their mean when they
    are counted as at least one. *)
Lemma np_sum_list_zero l :
  Forall (λ x, is_zero x = true) l → np_sum_list dt l = pos_zero.
Proof.
  intros Hl. unfold np_sum_list.
  apply (reduce_chunks_closed (SFadd _ _) neg_zero (λ x, is_zero x = true)
           eq_refl (SFadd_zero _ _) (λ x, x = pos_zero)).
  - apply SFadd_pos_zero_zero.
  - reflexivity.
  - apply Forall_map. eapply Forall_impl; [exact Hl|]. simpl.
    intros [s| | |] Hx; try discriminate. now rewrite cast_float_zero.
Qed.

Lemma np_mean_list_zero l count :
  (0 < count)%nat → Forall (λ x, is_zero x = true) l →
  np_mean_list dt l count = pos_zero.
Proof.
  intros Hcount Hl. unfold np_mean_list.
  rewrite (np_sum_list_zero l Hl). unfold pos_zero. rewrite cast_float_zero.
  destruct (float_of_nat_nonzero float64 count Hcount) as [Hnz Hsg].
  unfold float_of_nat, float_of_Z in Hnz, Hsg.
  pose proof (fdiv_pos_zero float64 _ Hnz Hsg) as Hdiv.
  unfold fdiv, pos_zero in Hdiv. rewrite Hdiv. apply cast_float_zero.
Qed.

(** A [NaN] among the elements makes the sum and the mean [NaN]. *)
Lemma np_sum_list_nan l : S754_nan ∈ l → np_sum_list dt l = S754_nan.
Proof.
  intros Hl. unfold np_sum_list.
  apply (reduce_chunks_taint (SFadd _ _) neg_zero (λ x, x = S754_nan)
           (SFadd_nan _ _)).
  - now rewrite length_map.
  - destruct l; [inversion Hl|].
    destruct dt; [unfold NPY_BUFSIZE; lia | simpl; lia ..].
  - right. apply Exists_exists. exists S754_nan. split; [|reflexivity].
    apply list_elem_of_fmap. exists S754_nan. now rewrite cast_float_nan.
Qed.

Lemma np_mean_list_nan l count : S754_nan ∈ l → np_mean_list dt l count = S754_nan.
Proof.
  intros Hl. unfold np_mean_list.
  rewrite (np_sum_list_nan l Hl), cast_float_nan. simpl. apply cast_float_nan.
Qed.

End MeanFacts.

(** ** The array pipeline against the specification *)

Section Refinement.
Variable dt : dtype.

Lemma squared_differences_row r1 : ∀ r2,
  map (λ x, fmul dt x x) (zip_with (fsub dt) r1 r2)
  = zip_with (squared_difference dt) r1 r2.
Proof.
  induction r1 as [|x r1 IH]; intros [|y r2]; simpl; try reflexivity.
  now rewrite IH.
Qed.

(** The elements of [(a - b) ** 2] are the squared differences of the
    elements of [a] and [b]. *)
Lemma squared_differences_ravel s a : ∀ b,
  ravel (np_square dt (mk_ndarray s (zip_with (zip_with (fsub dt)) a b)))
  = concat (zip_with (zip_with (squared_difference dt)) a b).
Proof.
  unfold ravel, np_square. simpl.
  induction a as [|r1 a IH]; intros [|r2 b]; simpl; try reflexivity.
  now rewrite squared_differences_row, IH.
Qed.

(** The array pipeline of the code computes the MSE of the specification on
    the broadcast operands. *)
Lemma compute_mse_spec source target s :
  broadcast_shapes (shape source) (shape target) = Some s →
  compute_mse dt source target
  = Ok (spec_mse dt (broadcast_to s source) (broadcast_to s target)).
Proof.
  intros Hs. unfold compute_mse, np_sub. rewrite Hs. f_equal.
  rewrite fmul_comm. unfold spec_mse, np_mean, squared_differences.
  now rewrite squared_differences_ravel.
Qed.

Lemma compute_mse_raises source target :
  broadcast_shapes (shape source) (shape target) = None →
  compute_mse dt source target = Raise broadcast_error.
Proof. intros Hs. unfold compute_mse, np_sub. now rewrite Hs. Qed.

Lemma squared_difference_positive x y :
  nan_or_positive (squared_difference dt x y) = true.
Proof. apply SFmul_square_positive. Qed.

Lemma squared_differences_positive a b :
  Forall (λ x, nan_or_positive x = true) (squared_differences dt a b).
Proof.
  unfold squared_differences. apply Forall_concat.
  generalize (rows b). induction (rows a) as [|r1 ra IH]; intros [|r2 rb];
    simpl; constructor; [|apply IH].
  clear. revert r2. induction r1 as [|x r1 IH]; intros [|y r2]; simpl;
    constructor; [apply squared_difference_positive | apply IH].
Qed.

(** Whatever the arrays, an MSE that is computed carries no sign bit. *)
Lemma compute_mse_positive source target mse :
  compute_mse dt source target = Ok mse → nan_or_positive mse = true.
Proof.
  destruct (broadcast_shapes (shape source) (shape target)) as [s|] eqn:Hs.
  - rewrite (compute_mse_spec source target s Hs). intros [= <-].
    unfold spec_mse. apply SFmul_positive.
    + apply (binary_normalize_positive _ _ 100 0). lia.
    + apply np_mean_list_positive, squared_differences_positive.
  - now rewrite (compute_mse_raises source target Hs).
Qed.

(** Equal operands with finite elements and at least one element have the
    MSE [+0.0]. *)
Lemma compute_mse_diag a :
  (0 < np_size a)%nat →
  Forall (Forall (λ x, is_finite x = true)) (rows a) →
  compute_mse dt a a = Ok pos_zero.
Proof.
  intros Hsize Hfin.
  rewrite (compute_mse_spec a a (shape a)) by apply broadcast_shapes_diag.
  f_equal. unfold spec_mse.
  assert (Hrows : Forall (Forall (λ x, is_finite x = true))
                    (rows (broadcast_to (shape a) a))).
  { simpl. apply Forall_stretch, Forall_map.
    eapply Forall_impl; [exact Hfin|]. intros r Hr. now apply Forall_stretch. }
  rewrite np_mean_list_zero.
  - rewrite fmul_comm. apply fmul_pos_zero_100.
  - exact Hsize.
  - unfold squared_differences. apply Forall_concat.
    induction Hrows as [|r rs Hr _ IH]; simpl; constructor; [|exact IH].
    clear -Hr. induction Hr as [|x r Hx _ IH]; simpl; constructor; [|exact IH].
    unfold squared_difference. now rewrite fsub_diag.
Qed.

End Refinement.

(** ** The steps of the evaluator *)

Section Steps.
Variable dt : dtype.
Variable sep : string.

(** Leaving the truncation context gives the model back as it was. *)
Lemma context_exit_restores d m :
  context_exit (snd (truncate_sentence_embeddings d m))
    (fst (truncate_sentence_embeddings d m)) = m.
Proof. destruct m. reflexivity. Qed.

Lemma encode_target_eq self model w :
  encode_target self model w
  = (Ok (target_embeddings self model, model), emit (target_event self model) w).
Proof.
  unfold encode_target, target_embeddings, target_event, encode_event,
    truncation_in_effect.
  destruct (truncate_dim self) as [d|]; [|reflexivity].
  destruct model. reflexivity.
Qed.

Lemma init_eq ss ts t spb bs nm wcsv td w :
  __init__ ss ts (Some t) spb bs nm wcsv td w
  = (Ok (mk_MSEEvaluator td
           (st_embed t (truncation_in_effect td t) ss spb bs) ts spb bs nm
           ("mse_evaluation_" +:+ nm +:+ "_results.csv")
           ["epoch"; "steps"; "MSE"] wcsv "negative_mse", t),
     emit (encode_event td t ss spb bs) w).
Proof.
  unfold __init__, encode_event, truncation_in_effect.
  destruct td as [d|]; [|reflexivity].
  destruct t. reflexivity.
Qed.

Lemma init_without_teacher ss ts spb bs nm wcsv td w :
  __init__ ss ts None spb bs nm wcsv td w
  = (Raise (AttributeError "NoneType"
              (match td with
               | None => "encode"
               | Some _ => "truncate_sentence_embeddings"
               end)), w).
Proof. destruct td; reflexivity. Qed.

Lemma prefix_name_to_metrics_singleton key value nm :
  prefix_name_to_metrics sep {[ key := value ]} nm
  = {[ (if bool_decide (nm = "") then key else nm +:+ sep +:+ key) := value ]}.
Proof.
  unfold prefix_name_to_metrics. case_bool_decide; [reflexivity|].
  unfold kmap. rewrite map_to_list_singleton. simpl.
  now rewrite insert_empty.
Qed.

(** The metrics [__call__] returns for a given MSE. *)
Lemma call_metrics self mse :
  prefix_name_to_metrics sep {[ "negative_mse" := fneg mse ]} (name self)
  = {[ metric_key sep (name self) := fneg mse ]}.
Proof. apply prefix_name_to_metrics_singleton. Qed.

(** What the files, the directories and the refusals of a world decide does
    not change with the trace. *)
Lemma open_fault_emit e w path : open_fault (emit e w) path = open_fault w path.
Proof. reflexivity. Qed.

Lemma csv_fault_emit self output_path e w :
  csv_fault self output_path (emit e w) = csv_fault self output_path w.
Proof. reflexivity. Qed.

Lemma csv_fault_disabled self output_path w :
  output_path = None ∨ write_csv self = false → csv_fault self output_path w = None.
Proof.
  unfold csv_fault, csv_path. intros [-> | ->]; [reflexivity|].
  now destruct output_path.
Qed.

Lemma log_csv_disabled self output_path epoch steps mse w :
  output_path = None ∨ write_csv self = false →
  log_csv self output_path epoch steps mse w = (Ok tt, w).
Proof.
  intros [-> | H]; [reflexivity|].
  unfold log_csv. rewrite H. now destruct output_path.
Qed.

(** The CSV log when it is enabled: the file is opened for appending if it
    exists and for writing (with the header row first) if it does not, and
    one data row is written. *)
Lemma log_csv_enabled self p epoch steps mse w :
  write_csv self = true →
  open_fault w (os_path_join p (csv_file self)) = None →
  let path := os_path_join p (csv_file self) in
  let row := [CellInt epoch; CellInt steps; CellFloat mse] in
  let header := CellStr <$> csv_headers self in
  log_csv self (Some p) epoch steps mse w
  = (Ok tt,
     match files w !! path with
     | Some old =>
         mk_World (<[path := old ++ [row]]> (files w)) (dirs w) (faults w)
           (trace w ++ [EvOpen path ModeAppend; EvWriteRow path row])
     | None =>
         mk_World (<[path := [header; row]]> (files w)) (dirs w) (faults w)
           (trace w ++ [EvOpen path ModeWrite; EvWriteRow path header;
                        EvWriteRow path row])
     end).
Proof.
  intros Hw Hopen path row header. unfold log_csv. rewrite Hw. fold path.
  unfold bind, os_path_isfile, open_file. fold path in Hopen. rewrite Hopen.
  unfold writerow, emit, set_files, ret.
  destruct (files w !! path) as [old|] eqn:Hold; simpl.
  - rewrite Hold. simpl. now rewrite <- app_assoc.
  - rewrite ?lookup_insert_eq. simpl. rewrite ?lookup_insert_eq. simpl.
    rewrite !insert_insert_eq. now rewrite <- !app_assoc.
Qed.

(** The CSV log when the [open] fails: the error of the operating system,
    and nothing written. *)
Lemma log_csv_fault self p epoch steps mse w e :
  write_csv self = true →
  open_fault w (os_path_join p (csv_file self)) = Some e →
  log_csv self (Some p) epoch steps mse w
  = (Raise (OSError e (os_path_join p (csv_file self))), w).
Proof.
  intros Hw Hopen. unfold log_csv. rewrite Hw.
  unfold bind, os_path_isfile, open_file. rewrite Hopen. reflexivity.
Qed.

(** The CSV log returns unless its [open] fails. *)
Lemma log_csv_result self output_path epoch steps mse w :
  log_csv self output_path epoch steps mse w
  = match csv_fault self output_path w with
    | Some e => (Raise e, w)
    | None => (Ok tt, snd (log_csv self output_path epoch steps mse w))
    end.
Proof.
  unfold csv_fault, csv_path. destruct output_path as [p|]; [|reflexivity].
  destruct (write_csv self) eqn:Hw; [|now rewrite log_csv_disabled by auto].
  destruct (open_fault w (os_path_join p (csv_file self))) as [e|] eqn:Hopen.
  - rewrite (log_csv_fault self p epoch steps mse w e Hw Hopen). reflexivity.
  - rewrite (log_csv_enabled self p epoch steps mse w Hw Hopen). reflexivity.
Qed.

(** [__call__], step by step. *)
Lemma call_eq self model output_path epoch steps w :
  __call__ dt sep self model output_path epoch steps w
  = let w1 := emit (target_event self model) w in
    match compute_mse dt (source_embeddings self) (target_embeddings self model) with
    | Raise e => (Raise e, w1)
    | Ok mse =>
        let metrics := {[ metric_key sep (name self) := fneg mse ]} in
        let w3 := emit (EvLogMSE mse)
                    (emit (EvLogInfo (log_message self epoch steps)) w1) in
        match csv_fault self output_path w with
        | Some e => (Raise e, w3)
        | None =>
            (Ok (metrics, self, store_metrics_in_model_card_data model metrics),
             snd (log_csv self output_path epoch steps mse w3))
        end
    end.
Proof.
  unfold __call__. unfold bind at 1. rewrite encode_target_eq.
  unfold bind at 1. unfold lift.
  destruct (compute_mse _ _ _) as [mse|e]; [|reflexivity].
  unfold bind at 1. unfold logger_info. unfold bind at 1.
  unfold logger_info_mse. unfold bind.
  fold (log_message self epoch steps). cbv zeta.
  rewrite log_csv_result, !csv_fault_emit.
  destruct (csv_fault self output_path w); [reflexivity|].
  unfold ret. simpl. now rewrite call_metrics.
Qed.

End Steps.

(** ** The claims of the specification *)

Section Claims.
Variable dt : dtype.
Variable sep : string.

(** The error of a failing [open] is an [OSError], never the error of the
    subtraction. *)
Lemma csv_fault_os_error self output_path w e :
  csv_fault self output_path w = Some e → ∃ kind path, e = OSError kind path.
Proof.
  unfold csv_fault. destruct (csv_path self output_path) as [path|]; [|discriminate].
  destruct (open_fault w path) as [kind|]; [|discriminate].
  intros [= <-]. eauto.
Qed.

(** C1 — Every call of [__call__] whose operands broadcast and whose CSV
    log, if any, can open its file returns the mapping with the single
    metric [-mse], where [mse] is 100 times the mean of the element-wise
    squared differences of the cached source embeddings and the freshly
    computed target embeddings (on arrays of one shape, the arrays
    themselves); the key is ["negative_mse"], prefixed with the name of the
    evaluator when the name is not empty.  A call whose operands do not
    broadcast, or whose [open] fails, returns nothing: it raises. *)
Theorem call_returns_negative_mse self model output_path epoch steps w :
  let source := source_embeddings self in
  let target := target_embeddings self model in
  match broadcast_shapes (shape source) (shape target) with
  | Some s =>
      let mse := spec_mse dt (broadcast_to s source) (broadcast_to s target) in
      let key := if bool_decide (name self = "") then "negative_mse"
                 else name self +:+ sep +:+ "negative_mse" in
      let metrics : gmap string float := {[ key := fneg mse ]} in
      match csv_fault self output_path w with
      | None =>
          fst (__call__ dt sep self model output_path epoch steps w)
          = Ok (metrics, self, store_metrics_in_model_card_data model metrics)
      | Some e =>
          fst (__call__ dt sep self model output_path epoch steps w) = Raise e
      end
      ∧ (wf_ndarray source → wf_ndarray target → shape source = shape target →
         mse = spec_mse dt source target)
  | None =>
      fst (__call__ dt sep self model output_path epoch steps w)
      = Raise broadcast_error
  end.
Proof.
  intros source target. rewrite call_eq. fold source target. cbv zeta.
  destruct (broadcast_shapes (shape source) (shape target)) as [s|] eqn:Hs.
  - rewrite (compute_mse_spec dt source target s Hs). split.
    + destruct (csv_fault self output_path w); reflexivity.
    + intros Hsrc Htgt Heq.
      rewrite Heq, broadcast_shapes_diag in Hs. injection Hs as <-.
      rewrite (broadcast_to_same target Htgt), <- Heq.
      now rewrite (broadcast_to_same source Hsrc).
  - now rewrite (compute_mse_raises dt source target Hs).
Qed.

(** C4, as amended — Whatever the two embedding matrices, an MSE that is
    computed is never negative: it is [NaN] or compares [>= 0], and the
    reported metric, its negation, is [NaN] or compares [<= 0].  The call
    reports that metric unless the [open] of its CSV log fails. *)
Theorem mse_nan_or_nonnegative self model output_path epoch steps w :
  match compute_mse dt (source_embeddings self) (target_embeddings self model) with
  | Ok mse =>
      match csv_fault self output_path w with
      | None =>
          ∃ model', fst (__call__ dt sep self model output_path epoch steps w)
                    = Ok ({[ metric_key sep (name self) := fneg mse ]}, self, model')
      | Some e =>
          fst (__call__ dt sep self model output_path epoch steps w) = Raise e
      end
      ∧ (mse = S754_nan ∧ fneg mse = S754_nan
         ∨ fle pos_zero mse = true ∧ fle (fneg mse) pos_zero = true)
  | Raise e => fst (__call__ dt sep self model output_path epoch steps w) = Raise e
  end.
Proof.
  rewrite call_eq. cbv zeta.
  destruct (compute_mse _ _ _) as [mse|e] eqn:Hmse; [|reflexivity].
  split; [destruct (csv_fault self output_path w); [|eexists]; reflexivity|].
  destruct (nan_or_positive_spec mse (compute_mse_positive dt _ _ mse Hmse))
    as [-> | H]; [left; split; reflexivity | right; exact H].
Qed.

(** C8, as amended — [__call__] raises numpy's [ValueError] of the
    subtraction exactly when the shapes of the two embedding matrices do not
    broadcast, that is when the row counts or the widths differ and neither
    of the two differing extents is 1; this happens after the [encode] of
    the target sentences and before any logging, file or metric is produced.
    When the shapes broadcast (also with unequal counts, one of them 1) no
    shape error is raised: the call returns, unless the [open] of its CSV
    log fails with an error of the operating system. *)
Theorem call_raises_iff_shapes_do_not_broadcast self model output_path epoch steps w :
  let source := source_embeddings self in
  let target := target_embeddings self model in
  match broadcast_shapes (shape source) (shape target) with
  | None =>
      __call__ dt sep self model output_path epoch steps w
      = (Raise broadcast_error, emit (target_event self model) w)
  | Some _ =>
      match csv_fault self output_path w with
      | None =>
          ∃ v w', __call__ dt sep self model output_path epoch steps w = (Ok v, w')
      | Some e =>
          ∃ kind path w',
            e = OSError kind path
            ∧ __call__ dt sep self model output_path epoch steps w = (Raise e, w')
      end
  end
  ∧ (broadcast_shapes (shape source) (shape target) = None ↔
     (nrows source ≠ nrows target ∧ nrows source ≠ 1%nat ∧ nrows target ≠ 1%nat)
     ∨ (ncols source ≠ ncols target ∧ ncols source ≠ 1%nat ∧ ncols target ≠ 1%nat)).
Proof.
  intros source target. split; [|apply broadcast_shapes_None].
  rewrite call_eq. fold source target. cbv zeta.
  destruct (broadcast_shapes (shape source) (shape target)) as [s|] eqn:Hs.
  - rewrite (compute_mse_spec dt source target s Hs).
    destruct (csv_fault self output_path w) as [e|] eqn:He; [|eauto].
    destruct (csv_fault_os_error _ _ _ _ He) as (kind & path & ->). eauto 6.
  - now rewrite (compute_mse_raises dt source target Hs).
Qed.

(** C10 — Constructing the evaluator without a teacher model (the default
    [None]) raises [AttributeError] for every choice of the other arguments:
    on [encode] when no truncation dimension is configured, on
    [truncate_sentence_embeddings] otherwise; no evaluator is returned and
    nothing else has happened. *)
Theorem init_without_teacher_raises ss ts spb bs nm wcsv td w :
  ∃ attr,
    __init__ ss ts None spb bs nm wcsv td w
    = (Raise (AttributeError "NoneType" attr), w)
    ∧ attr = match td with
             | None => "encode"
             | Some _ => "truncate_sentence_embeddings"
             end.
Proof. eexists. split; [apply init_without_teacher | reflexivity]. Qed.

(** The CSV log adds file events only, and none when it is disabled or its
    [open] fails; it never changes the directories or the refusals. *)
Lemma log_csv_trace self output_path epoch steps mse w :
  ∃ evs,
    trace (snd (log_csv self output_path epoch steps mse w)) = trace w ++ evs
    ∧ Forall (λ e, is_file_event e = true) evs
    ∧ (csv_fault self output_path w ≠ None
       ∨ output_path = None ∨ write_csv self = false → evs = []).
Proof.
  destruct output_path as [p|].
  - destruct (write_csv self) eqn:Hw.
    + destruct (open_fault w (os_path_join p (csv_file self))) as [e|] eqn:Hopen.
      * rewrite (log_csv_fault self p epoch steps mse w e Hw Hopen). exists [].
        simpl. rewrite app_nil_r. auto.
      * rewrite (log_csv_enabled self p epoch steps mse w Hw Hopen). simpl.
        assert (Hnone : csv_fault self (Some p) w = None).
        { unfold csv_fault, csv_path. now rewrite Hw, Hopen. }
        destruct (files w !! _); simpl; eexists; (split; [reflexivity|]);
          (split; [repeat constructor | intros [|[|]]; congruence]).
    + rewrite log_csv_disabled by auto. exists []. simpl.
      rewrite app_nil_r. auto.
  - exists []. simpl. rewrite app_nil_r. auto.
Qed.

Lemma filter_file_events_encode evs :
  Forall (λ e, is_file_event e = true) evs → List.filter is_encode_event evs = [].
Proof.
  induction 1 as [|e evs He _ IH]; simpl; [reflexivity|].
  destruct e; try discriminate He; exact IH.
Qed.

(** A call encodes once, the target sentences with the model it is given,
    and returns the evaluator it was called on. *)
Lemma call_encode_events self model output_path epoch steps w :
  List.filter is_encode_event
    (trace (snd (__call__ dt sep self model output_path epoch steps w)))
  = List.filter is_encode_event (trace w) ++ [target_event self model].
Proof.
  rewrite call_eq. cbv zeta.
  destruct (compute_mse _ _ _) as [mse|e]; simpl.
  - destruct (csv_fault self output_path w); simpl.
    + rewrite !List.filter_app. simpl. now rewrite !app_nil_r.
    + destruct (log_csv_trace self output_path epoch steps mse
          (emit (EvLogMSE mse) (emit (EvLogInfo (log_message self epoch steps))
             (emit (target_event self model) w)))) as (evs & -> & Hevs & _).
      simpl. rewrite !List.filter_app, (filter_file_events_encode evs Hevs). simpl.
      now rewrite !app_nil_r.
  - now rewrite List.filter_app.
Qed.

Lemma call_returns_self self model output_path epoch steps w metrics self' model' :
  fst (__call__ dt sep self model output_path epoch steps w)
  = Ok (metrics, self', model') → self' = self.
Proof.
  rewrite call_eq. cbv zeta. destruct (compute_mse _ _ _); simpl; [|congruence].
  destruct (csv_fault self output_path w); simpl; congruence.
Qed.

Lemma run_calls_invariant calls : ∀ self w,
  fst (run_calls dt sep self calls w) = self
  ∧ List.filter is_encode_event (trace (snd (run_calls dt sep self calls w)))
    = List.filter is_encode_event (trace w)
      ++ map (λ c, target_event self (ca_model c)) calls.
Proof.
  induction calls as [|c calls IH]; intros self w; simpl.
  - now rewrite app_nil_r.
  - pose proof (call_encode_events self (ca_model c) (ca_output_path c)
                  (ca_epoch c) (ca_steps c) w) as Hev.
    pose proof (call_returns_self self (ca_model c) (ca_output_path c)
                  (ca_epoch c) (ca_steps c) w) as Hself.
    destruct (__call__ _ _ _ _ _ _ _ _) as [[[[metrics self'] model']|e] w'];
      simpl in Hev, Hself.
    + rewrite (Hself _ _ _ eq_refl). destruct (IH self w') as [-> ->].
      split; [reflexivity|]. now rewrite Hev, <- app_assoc.
    + destruct (IH self w') as [-> ->].
      split; [reflexivity|]. now rewrite Hev, <- app_assoc.
Qed.

(** C2 — The constructor encodes the source sentences once, with the
    teacher, and keeps the result; any sequence of calls afterwards leaves
    the evaluator, and with it the cached source embeddings, as constructed;
    every call encodes once, the target sentences with the model passed to
    it, so that the encode events of the whole run are the one of the
    constructor followed by one per call. *)
Theorem source_embeddings_encoded_once ss ts t spb bs nm wcsv td w calls :
  ∃ self,
    let w1 := emit (encode_event td t ss spb bs) w in
    __init__ ss ts (Some t) spb bs nm wcsv td w = (Ok (self, t), w1)
    ∧ source_embeddings self = st_embed t (truncation_in_effect td t) ss spb bs
    ∧ target_sentences self = ts
    ∧ fst (run_calls dt sep self calls w1) = self
    ∧ source_embeddings (fst (run_calls dt sep self calls w1)) = source_embeddings self
    ∧ List.filter is_encode_event (trace (snd (run_calls dt sep self calls w1)))
      = List.filter is_encode_event (trace w)
        ++ encode_event td t ss spb bs
           :: map (λ c, encode_event td (ca_model c) ts spb bs) calls.
Proof.
  eexists. cbv zeta. split; [apply init_eq|].
  split; [reflexivity|]. split; [reflexivity|].
  match goal with |- context [run_calls dt sep ?s calls ?w1] =>
    destruct (run_calls_invariant calls s w1) as [Hself Hev] end.
  rewrite Hself, Hev. split; [reflexivity|]. split; [reflexivity|].
  simpl. rewrite List.filter_app. simpl. now rewrite <- app_assoc.
Qed.

(** The path of the CSV file: the file name of the constructor inside
    [output_path], with a separating slash unless [output_path] is empty or
    ends with one. *)
Lemma os_path_join_csv_file p nm :
  os_path_join p ("mse_evaluation_" +:+ nm +:+ "_results.csv")
  = p +:+ (if bool_decide (p = "") || ends_with_slash p then "" else "/")
      +:+ "mse_evaluation_" +:+ nm +:+ "_results.csv".
Proof.
  unfold os_path_join. simpl String.prefix.
  destruct (bool_decide (p = "") || ends_with_slash p); reflexivity.
Qed.

Lemma filter_file_events_id evs :
  Forall (λ e, is_file_event e = true) evs → List.filter is_file_event evs = evs.
Proof.
  induction 1 as [|e evs He _ IH]; simpl; [reflexivity|].
  now rewrite He, IH.
Qed.

(** The world after a call that computes an MSE and logs it to a CSV file
    it can open. *)
Lemma call_logging self model p epoch steps w mse :
  write_csv self = true →
  open_fault w (os_path_join p (csv_file self)) = None →
  compute_mse dt (source_embeddings self) (target_embeddings self model) = Ok mse →
  let path := os_path_join p (csv_file self) in
  let header := CellStr <$> csv_headers self in
  let row := [CellInt epoch; CellInt steps; CellFloat mse] in
  ∃ v model' w',
    __call__ dt sep self model (Some p) epoch steps w = (Ok (v, self, model'), w')
    ∧ files w'
      = <[path := match files w !! path with
                  | Some old => old ++ [row]
                  | None => [header; row]
                  end]> (files w)
    ∧ dirs w' = dirs w ∧ faults w' = faults w
    ∧ List.filter is_file_event (trace w')
      = List.filter is_file_event (trace w)
        ++ match files w !! path with
           | Some _ => [EvOpen path ModeAppend]
           | None => [EvOpen path ModeWrite; EvWriteRow path header]
           end ++ [EvWriteRow path row].
Proof.
  intros Hw Hopen Hmse path header row. rewrite call_eq, Hmse. cbv zeta.
  unfold csv_fault, csv_path. rewrite Hw, Hopen. cbn [fmap option_fmap option_map].
  rewrite (log_csv_enabled self p epoch steps mse _ Hw);
    [|now rewrite !open_fault_emit].
  cbv zeta. simpl. fold path header row.
  destruct (files w !! path); do 3 eexists; (split; [reflexivity|]); simpl;
    (split; [reflexivity|]); (split; [reflexivity|]); (split; [reflexivity|]);
    rewrite !List.filter_app; simpl; now rewrite !app_nil_r.
Qed.

(** The world after a call that computes an MSE and fails to open its CSV
    file: the two log messages, and no file touched. *)
Lemma call_open_fails self model p epoch steps w mse e :
  write_csv self = true →
  open_fault w (os_path_join p (csv_file self)) = Some e →
  compute_mse dt (source_embeddings self) (target_embeddings self model) = Ok mse →
  __call__ dt sep self model (Some p) epoch steps w
  = (Raise (OSError e (os_path_join p (csv_file self))),
     emit (EvLogMSE mse)
       (emit (EvLogInfo (log_message self epoch steps))
          (emit (target_event self model) w))).
Proof.
  intros Hw Hopen Hmse. rewrite call_eq, Hmse. cbv zeta.
  unfold csv_fault, csv_path. now rewrite Hw, Hopen.
Qed.

(** What the constructor fixes of an evaluator it returns. *)
Lemma init_fields ss ts t spb bs nm wcsv td w0 self t' :
  fst (__init__ ss ts (Some t) spb bs nm wcsv td w0) = Ok (self, t') →
  csv_file self = "mse_evaluation_" +:+ nm +:+ "_results.csv"
  ∧ csv_headers self = ["epoch"; "steps"; "MSE"]
  ∧ write_csv self = wcsv ∧ name self = nm ∧ truncate_dim self = td
  ∧ target_sentences self = ts ∧ show_progress_bar self = spb
  ∧ batch_size self = bs
  ∧ source_embeddings self = st_embed t (truncation_in_effect td t) ss spb bs
  ∧ t' = t.
Proof. rewrite init_eq. simpl. intros [= <- <-]. simpl. repeat split. Qed.

(** C3 — For an evaluator constructed with [write_csv=True] and a call with
    an output path that computes an MSE: the CSV file is
    [mse_evaluation_<name>_results.csv] inside [output_path].  When the file
    can be opened, a file that does not exist is opened for writing and
    receives the header row [epoch, steps, MSE] and then the data row
    [epoch, steps, mse]; a file that exists is opened for appending and
    receives the data row only, after its former rows; no other file
    changes.  When the [open] fails (a missing output directory, a refusal
    of the operating system) the call raises that error and no file is
    created or changed. *)
Theorem csv_logging_appends_one_row
    ss ts t spb bs nm td w0 self t' model p epoch steps w mse :
  fst (__init__ ss ts (Some t) spb bs nm true td w0) = Ok (self, t') →
  compute_mse dt (source_embeddings self) (target_embeddings self model) = Ok mse →
  let path := p +:+ (if bool_decide (p = "") || ends_with_slash p then "" else "/")
                +:+ "mse_evaluation_" +:+ nm +:+ "_results.csv" in
  let header := [CellStr "epoch"; CellStr "steps"; CellStr "MSE"] in
  let row := [CellInt epoch; CellInt steps; CellFloat mse] in
  match open_fault w path with
  | None =>
      ∃ v model' w',
        __call__ dt sep self model (Some p) epoch steps w = (Ok (v, self, model'), w')
        ∧ files w'
          = <[path := match files w !! path with
                      | Some old => old ++ [row]
                      | None => [header; row]
                      end]> (files w)
        ∧ List.filter is_file_event (trace w')
          = List.filter is_file_event (trace w)
            ++ match files w !! path with
               | Some _ => [EvOpen path ModeAppend]
               | None => [EvOpen path ModeWrite; EvWriteRow path header]
               end ++ [EvWriteRow path row]
  | Some e =>
      ∃ w',
        __call__ dt sep self model (Some p) epoch steps w
        = (Raise (OSError e path), w')
        ∧ files w' = files w
        ∧ List.filter is_file_event (trace w') = List.filter is_file_event (trace w)
  end.
Proof.
  intros Hinit Hmse.
  destruct (init_fields _ _ _ _ _ _ _ _ _ _ _ Hinit)
    as (Hfile & Hhdr & Hw & _).
  cbv zeta. rewrite <- os_path_join_csv_file, <- Hfile.
  destruct (open_fault w (os_path_join p (csv_file self))) as [e|] eqn:Hopen.
  - rewrite (call_open_fails self model p epoch steps w mse e Hw Hopen Hmse).
    eexists. split; [reflexivity|]. split; [reflexivity|]. simpl.
    rewrite !List.filter_app. simpl. now rewrite !app_nil_r.
  - destruct (call_logging self model p epoch steps w mse Hw Hopen Hmse)
      as (v & model' & w' & Hcall & Hfiles & _ & _ & Htrace).
    rewrite Hhdr in Hfiles, Htrace. eauto 6.
Qed.

(** C6 — Two calls of an evaluator constructed with [write_csv=True], with
    the same output path, no CSV file to begin with and a CSV path that can
    be opened, both computing an MSE, leave the file with the header row
    followed by the data row of the first call and then the data row of the
    second. *)
Theorem two_calls_one_header_two_rows
    ss ts t spb bs nm td w0 self t' model1 model2 p
    epoch1 steps1 epoch2 steps2 w mse1 mse2 :
  fst (__init__ ss ts (Some t) spb bs nm true td w0) = Ok (self, t') →
  files w !! os_path_join p (csv_file self) = None →
  open_fault w (os_path_join p (csv_file self)) = None →
  compute_mse dt (source_embeddings self) (target_embeddings self model1) = Ok mse1 →
  compute_mse dt (source_embeddings self) (target_embeddings self model2) = Ok mse2 →
  ∃ v1 model1' w1 v2 model2' w2,
    __call__ dt sep self model1 (Some p) epoch1 steps1 w = (Ok (v1, self, model1'), w1)
    ∧ __call__ dt sep self model2 (Some p) epoch2 steps2 w1 = (Ok (v2, self, model2'), w2)
    ∧ files w2 !! os_path_join p (csv_file self)
      = Some [[CellStr "epoch"; CellStr "steps"; CellStr "MSE"];
              [CellInt epoch1; CellInt steps1; CellFloat mse1];
              [CellInt epoch2; CellInt steps2; CellFloat mse2]].
Proof.
  intros Hinit Hnone Hopen Hmse1 Hmse2.
  destruct (init_fields _ _ _ _ _ _ _ _ _ _ _ Hinit) as (_ & Hhdr & Hw & _).
  destruct (call_logging self model1 p epoch1 steps1 w mse1 Hw Hopen Hmse1)
    as (v1 & model1' & w1 & Hcall1 & Hfiles1 & Hdirs1 & Hfaults1 & _).
  assert (Hopen1 : open_fault w1 (os_path_join p (csv_file self)) = None).
  { unfold open_fault in *. rewrite Hfaults1, Hdirs1, Hfiles1, lookup_insert_eq.
    destruct (faults w !! _); [discriminate|].
    now destruct (bool_decide _). }
  destruct (call_logging self model2 p epoch2 steps2 w1 mse2 Hw Hopen1 Hmse2)
    as (v2 & model2' & w2 & Hcall2 & Hfiles2 & _).
  exists v1, model1', w1, v2, model2', w2. split; [exact Hcall1|].
  split; [exact Hcall2|].
  rewrite Hfiles2, lookup_insert_eq, Hfiles1, lookup_insert_eq, Hnone, Hhdr.
  reflexivity.
Qed.

(** C9 — A call without an output path, or of an evaluator with
    [write_csv=False], touches no file: the files are as before and the call
    adds no file event; and what the call returns (the metrics, or the
    error) is what it returns for any output path whose CSV file can be
    opened. *)
Theorem no_csv_without_output_path self model output_path epoch steps w :
  output_path = None ∨ write_csv self = false →
  let r := __call__ dt sep self model output_path epoch steps w in
  files (snd r) = files w
  ∧ List.filter is_file_event (trace (snd r)) = List.filter is_file_event (trace w)
  ∧ ∀ output_path',
      csv_fault self output_path' w = None →
      fst (__call__ dt sep self model output_path' epoch steps w) = fst r.
Proof.
  intros Hoff r. subst r. rewrite call_eq. cbv zeta.
  rewrite (csv_fault_disabled self output_path w Hoff).
  split; [|split].
  - destruct (compute_mse _ _ _); [|reflexivity]. simpl.
    now rewrite log_csv_disabled by assumption.
  - destruct (compute_mse _ _ _); simpl.
    + rewrite log_csv_disabled by assumption. simpl.
      rewrite !List.filter_app. simpl. now rewrite !app_nil_r.
    + rewrite List.filter_app. simpl. now rewrite app_nil_r.
  - intros output_path' Hnone. rewrite call_eq. cbv zeta. rewrite Hnone.
    destruct (compute_mse _ _ _); reflexivity.
Qed.

(** C5, as amended — When the source and target sentence lists are the same
    list and the evaluated model is the teacher, so that the two embedding
    matrices are equal, and when that matrix has at least one element and
    only finite elements, the computed MSE is [+0.0] and the reported metric
    is [-0.0]; both compare equal to 0.  The call reports that metric unless
    the [open] of its CSV log fails. *)
Theorem identical_inputs_give_zero_mse
    ss t spb bs nm wcsv td w0 output_path epoch steps w :
  let embeddings := st_embed t (truncation_in_effect td t) ss spb bs in
  (0 < np_size embeddings)%nat →
  Forall (Forall (λ x, is_finite x = true)) (rows embeddings) →
  ∃ self model',
    fst (__init__ ss ss (Some t) spb bs nm wcsv td w0) = Ok (self, t)
    ∧ target_embeddings self t = source_embeddings self
    ∧ compute_mse dt (source_embeddings self) (target_embeddings self t) = Ok pos_zero
    ∧ match csv_fault self output_path w with
      | None =>
          fst (__call__ dt sep self t output_path epoch steps w)
          = Ok ({[ metric_key sep nm := neg_zero ]}, self, model')
      | Some e =>
          fst (__call__ dt sep self t output_path epoch steps w) = Raise e
      end
    ∧ feq pos_zero pos_zero = true ∧ feq neg_zero pos_zero = true.
Proof.
  intros embeddings Hsize Hfin.
  eexists. eexists. rewrite init_eq. split; [reflexivity|].
  split; [reflexivity|].
  assert (Hmse : compute_mse dt embeddings embeddings = Ok pos_zero)
    by now apply compute_mse_diag.
  split; [exact Hmse|].
  rewrite call_eq. unfold target_embeddings. simpl. fold embeddings.
  rewrite Hmse. simpl. split; [|split; reflexivity].
  destruct (csv_fault _ output_path w); reflexivity.
Qed.

(** C7 — With a truncation dimension [d] configured, the constructor encodes
    the source sentences with the teacher under the dimension [d], every
    call encodes the target sentences with the evaluated model under the
    same [d], and for models that honour the truncation contract both
    embedding matrices have width [d]. *)
Theorem truncation_applied_to_both_encoders
    ss ts t spb bs nm wcsv d w0 model output_path epoch steps w :
  honours_truncation t → honours_truncation model →
  ∃ self,
    __init__ ss ts (Some t) spb bs nm wcsv (Some d) w0
    = (Ok (self, t), emit (EvEncode (st_id t) (Some d) ss spb bs) w0)
    ∧ ncols (source_embeddings self) = d
    ∧ encode_target self model w
      = (Ok (target_embeddings self model, model),
         emit (EvEncode (st_id model) (Some d) ts spb bs) w)
    ∧ ncols (target_embeddings self model) = d
    ∧ List.filter is_encode_event
        (trace (snd (__call__ dt sep self model output_path epoch steps w)))
      = List.filter is_encode_event (trace w)
        ++ [EvEncode (st_id model) (Some d) ts spb bs].
Proof.
  intros Ht Hmodel. eexists. split; [apply init_eq|].
  split; [apply Ht|]. split; [apply encode_target_eq|].
  split; [apply Hmodel|]. apply call_encode_events.
Qed.

End Claims.

(** ** The claims at concrete inputs *)

Example dev_evaluator_constructed :
  fst (__init__ ["ab"; "c"] ["ab"; "cde"] (Some (length_model 1)) false 32 "dev"
         true None empty_world)
  = Ok (dev_evaluator, length_model 1).
Proof. reflexivity. Qed.

Example dev_evaluator_mse :
  compute_mse float32 (source_embeddings dev_evaluator)
    (target_embeddings dev_evaluator (length_model 2))
  = Ok f32_200.
Proof. vm_compute. reflexivity. Qed.

(** Witness of C3: the first call of [dev_evaluator], in a world where the
    directory [out] exists, creates the file with the header and one row. *)
Lemma csv_logging_appends_one_row_witness :
  fst (__init__ ["ab"; "c"] ["ab"; "cde"] (Some (length_model 1)) false 32 "dev"
         true None empty_world)
  = Ok (dev_evaluator, length_model 1)
  ∧ compute_mse float32 (source_embeddings dev_evaluator)
      (target_embeddings dev_evaluator (length_model 2))
    = Ok f32_200
  ∧ open_fault out_world "out/mse_evaluation_dev_results.csv" = None
  ∧ ∃ v model' w',
      __call__ float32 "_" dev_evaluator (length_model 2) (Some "out") 1 (-1)
        out_world
      = (Ok (v, dev_evaluator, model'), w')
      ∧ files w'
        = <["out/mse_evaluation_dev_results.csv" :=
              [[CellStr "epoch"; CellStr "steps"; CellStr "MSE"];
               [CellInt 1; CellInt (-1); CellFloat f32_200]]]> ∅
      ∧ List.filter is_file_event (trace w')
        = [EvOpen "out/mse_evaluation_dev_results.csv" ModeWrite;
           EvWriteRow "out/mse_evaluation_dev_results.csv"
             [CellStr "epoch"; CellStr "steps"; CellStr "MSE"];
           EvWriteRow "out/mse_evaluation_dev_results.csv"
             [CellInt 1; CellInt (-1); CellFloat f32_200]].
Proof.
  assert (H1 : fst (__init__ ["ab"; "c"] ["ab"; "cde"] (Some (length_model 1))
                      false 32 "dev" true None empty_world)
               = Ok (dev_evaluator, length_model 1)) by reflexivity.
  assert (H2 : compute_mse float32 (source_embeddings dev_evaluator)
                 (target_embeddings dev_evaluator (length_model 2))
               = Ok f32_200) by (vm_compute; reflexivity).
  split; [exact H1|]. split; [exact H2|]. split; [reflexivity|].
  exact (csv_logging_appends_one_row float32 "_" _ _ _ _ _ _ _ _ _ _
           (length_model 2) "out" 1 (-1) out_world _ H1 H2).
Defined.

(** Witness of C6: two calls of [dev_evaluator], by two models, in a world
    that holds the directory [out] and no file. *)
Lemma two_calls_one_header_two_rows_witness :
  fst (__init__ ["ab"; "c"] ["ab"; "cde"] (Some (length_model 1)) false 32 "dev"
         true None empty_world)
  = Ok (dev_evaluator, length_model 1)
  ∧ files out_world !! os_path_join "out" (csv_file dev_evaluator) = None
  ∧ open_fault out_world (os_path_join "out" (csv_file dev_evaluator)) = None
  ∧ compute_mse float32 (source_embeddings dev_evaluator)
      (target_embeddings dev_evaluator (length_model 2))
    = Ok f32_200
  ∧ ∃ v1 model1' w1 v2 model2' w2,
      __call__ float32 "_" dev_evaluator (length_model 2) (Some "out") 1 (-1)
        out_world
      = (Ok (v1, dev_evaluator, model1'), w1)
      ∧ __call__ float32 "_" dev_evaluator (length_model 3) (Some "out") 1 500 w1
        = (Ok (v2, dev_evaluator, model2'), w2)
      ∧ files w2 !! os_path_join "out" (csv_file dev_evaluator)
        = Some [[CellStr "epoch"; CellStr "steps"; CellStr "MSE"];
                [CellInt 1; CellInt (-1); CellFloat f32_200];
                [CellInt 1; CellInt 500; CellFloat f32_200]].
Proof.
  assert (H1 : fst (__init__ ["ab"; "c"] ["ab"; "cde"] (Some (length_model 1))
                      false 32 "dev" true None empty_world)
               = Ok (dev_evaluator, length_model 1)) by reflexivity.
  assert (H2 : files out_world !! os_path_join "out" (csv_file dev_evaluator)
               = None) by reflexivity.
  assert (Hopen : open_fault out_world (os_path_join "out" (csv_file dev_evaluator))
                  = None) by reflexivity.
  assert (H3 : compute_mse float32 (source_embeddings dev_evaluator)
                 (target_embeddings dev_evaluator (length_model 2))
               = Ok f32_200) by (vm_compute; reflexivity).
  assert (H4 : compute_mse float32 (source_embeddings dev_evaluator)
                 (target_embeddings dev_evaluator (length_model 3))
               = Ok f32_200) by (vm_compute; reflexivity).
  split; [exact H1|]. split; [exact H2|]. split; [exact Hopen|]. split; [exact H3|].
  exact (two_calls_one_header_two_rows float32 "_" _ _ _ _ _ _ _ _ _ _
           (length_model 2) (length_model 3) "out" 1 (-1) 1 500 out_world
           _ _ H1 H2 Hopen H3 H4).
Defined.

(** Witness of C9: [dev_evaluator] has [write_csv=True], the call has no
    output path; the call with the output path [out], whose CSV file can be
    opened, returns the same. *)
Lemma no_csv_without_output_path_witness :
  (@None string = None ∨ write_csv dev_evaluator = false)
  ∧ files (snd (__call__ float32 "_" dev_evaluator (length_model 2) None 1 (-1)
                  out_world)) = ∅
  ∧ List.filter is_file_event
      (trace (snd (__call__ float32 "_" dev_evaluator (length_model 2) None 1 (-1)
                     out_world))) = []
  ∧ fst (__call__ float32 "_" dev_evaluator (length_model 2) (Some "out") 1 (-1)
           out_world)
    = fst (__call__ float32 "_" dev_evaluator (length_model 2) None 1 (-1)
             out_world).
Proof.
  assert (H : @None string = None ∨ write_csv dev_evaluator = false)
    by (left; reflexivity).
  split; [exact H|].
  destruct (no_csv_without_output_path float32 "_" dev_evaluator (length_model 2)
              None 1 (-1) out_world H) as (Hfiles & Htrace & Hresult).
  split; [exact Hfiles|]. split; [exact Htrace|].
  exact (Hresult (Some "out") eq_refl).
Defined.

(** Witness of C5, as amended: source and target sentences [["ab"; "c"]],
    teacher and evaluated model [length_model 1]. *)
Lemma identical_inputs_give_zero_mse_witness :
  (0 < np_size (st_embed (length_model 1) None ["ab"; "c"] false 32))%nat
  ∧ Forall (Forall (λ x, is_finite x = true))
      (rows (st_embed (length_model 1) None ["ab"; "c"] false 32))
  ∧ ∃ self model',
      fst (__init__ ["ab"; "c"] ["ab"; "c"] (Some (length_model 1)) false 32 "dev"
             true None empty_world)
      = Ok (self, length_model 1)
      ∧ target_embeddings self (length_model 1) = source_embeddings self
      ∧ compute_mse float32 (source_embeddings self)
          (target_embeddings self (length_model 1)) = Ok pos_zero
      ∧ fst (__call__ float32 "_" self (length_model 1) None (-1) (-1) empty_world)
        = Ok ({[ metric_key "_" "dev" := neg_zero ]}, self, model')
      ∧ feq pos_zero pos_zero = true ∧ feq neg_zero pos_zero = true.
Proof.
  assert (H1 : (0 < np_size (st_embed (length_model 1) None ["ab"; "c"] false 32))%nat)
    by (vm_compute; lia).
  assert (H2 : Forall (Forall (λ x, is_finite x = true))
                 (rows (st_embed (length_model 1) None ["ab"; "c"] false 32)))
    by (repeat constructor).
  split; [exact H1|]. split; [exact H2|].
  exact (identical_inputs_give_zero_mse float32 "_" ["ab"; "c"] (length_model 1)
           false 32 "dev" true None empty_world None (-1) (-1) empty_world H1 H2).
Defined.

Lemma length_model_honours_truncation id : honours_truncation (length_model id).
Proof. intros d sentences spb bs. reflexivity. Qed.

(** Witness of C7: teacher [length_model 1], evaluated model
    [length_model 2], truncation dimension 3. *)
Lemma truncation_applied_to_both_encoders_witness :
  honours_truncation (length_model 1) ∧ honours_truncation (length_model 2)
  ∧ ∃ self,
      __init__ ["ab"; "c"] ["ab"; "cde"] (Some (length_model 1)) false 32 "dev"
        true (Some 3%nat) empty_world
      = (Ok (self, length_model 1),
         emit (EvEncode 1 (Some 3%nat) ["ab"; "c"] false 32) empty_world)
      ∧ ncols (source_embeddings self) = 3%nat
      ∧ encode_target self (length_model 2) empty_world
        = (Ok (target_embeddings self (length_model 2), length_model 2),
           emit (EvEncode 2 (Some 3%nat) ["ab"; "cde"] false 32) empty_world)
      ∧ ncols (target_embeddings self (length_model 2)) = 3%nat
      ∧ List.filter is_encode_event
          (trace (snd (__call__ float32 "_" self (length_model 2) None 1 (-1)
                         empty_world)))
        = [EvEncode 2 (Some 3%nat) ["ab"; "cde"] false 32].
Proof.
  split; [apply length_model_honours_truncation|].
  split; [apply length_model_honours_truncation|].
  exact (truncation_applied_to_both_encoders float32 "_" ["ab"; "c"] ["ab"; "cde"]
           (length_model 1) false 32 "dev" true 3%nat empty_world (length_model 2)
           None 1 (-1) empty_world (length_model_honours_truncation 1)
           (length_model_honours_truncation 2)).
Defined.

(** Counterexample to C4: for no sentence at all both embedding matrices
    are empty, the mean of the empty array of squared differences is
    [0.0 / 0 = NaN], and so are the MSE and the reported metric: the MSE
    does not compare [>= 0] and the metric does not compare [<= 0]. *)
Lemma empty_embeddings_mse_is_nan :
  fst (__init__ [] [] (Some (length_model 1)) false 32 "" true None empty_world)
  = Ok (empty_evaluator, length_model 1)
  ∧ compute_mse float32 (source_embeddings empty_evaluator)
      (target_embeddings empty_evaluator (length_model 2))
    = Ok S754_nan
  ∧ (∃ model',
       fst (__call__ float32 "_" empty_evaluator (length_model 2) None (-1) (-1)
              empty_world)
       = Ok ({[ "negative_mse" := S754_nan ]}, empty_evaluator, model'))
  ∧ fle pos_zero S754_nan = false
  ∧ fle (fneg S754_nan) pos_zero = false.
Proof.
  split; [reflexivity|].
  assert (H : compute_mse float32 (source_embeddings empty_evaluator)
                (target_embeddings empty_evaluator (length_model 2))
              = Ok S754_nan) by (vm_compute; reflexivity).
  split; [exact H|]. split; [|split; reflexivity].
  eexists. rewrite call_eq. cbv zeta. rewrite H. reflexivity.
Qed.

(** Counterexample to C5: the source and target sentence lists are the same
    (empty) list and the evaluated model is the teacher, the two embedding
    matrices are equal, and the MSE and the reported metric are [NaN], which
    does not compare equal to 0. *)
Lemma identical_empty_inputs_give_nan :
  fst (__init__ [] [] (Some (length_model 1)) false 32 "" true None empty_world)
  = Ok (empty_evaluator, length_model 1)
  ∧ target_embeddings empty_evaluator (length_model 1)
    = source_embeddings empty_evaluator
  ∧ compute_mse float32 (source_embeddings empty_evaluator)
      (target_embeddings empty_evaluator (length_model 1))
    = Ok S754_nan
  ∧ (∃ model',
       fst (__call__ float32 "_" empty_evaluator (length_model 1) None (-1) (-1)
              empty_world)
       = Ok ({[ "negative_mse" := S754_nan ]}, empty_evaluator, model'))
  ∧ feq S754_nan pos_zero = false.
Proof.
  split; [reflexivity|]. split; [reflexivity|].
  assert (H : compute_mse float32 (source_embeddings empty_evaluator)
                (target_embeddings empty_evaluator (length_model 1))
              = Ok S754_nan) by (vm_compute; reflexivity).
  split; [exact H|]. split; [|reflexivity].
  eexists. rewrite call_eq. cbv zeta. rewrite H. reflexivity.
Qed.

(** Counterexample to C8: one source sentence and two target sentences; the
    counts differ, numpy broadcasts the one source row over the two target
    rows, and the call returns the metric [-50.0] instead of raising. *)
Lemma mismatched_counts_broadcast :
  fst (__init__ ["a"] ["b"; "cd"] (Some (length_model 1)) false 32 "" true None
         empty_world)
  = Ok (single_source_evaluator, length_model 1)
  ∧ shape (source_embeddings single_source_evaluator) = (1%nat, 2%nat)
  ∧ shape (target_embeddings single_source_evaluator (length_model 2))
    = (2%nat, 2%nat)
  ∧ ∃ model',
      fst (__call__ float32 "_" single_source_evaluator (length_model 2) None
             (-1) (-1) empty_world)
      = Ok ({[ "negative_mse" := fneg f32_50 ]}, single_source_evaluator, model').
Proof.
  split; [reflexivity|]. split; [reflexivity|]. split; [reflexivity|].
  assert (H : compute_mse float32 (source_embeddings single_source_evaluator)
                (target_embeddings single_source_evaluator (length_model 2))
              = Ok f32_50) by (vm_compute; reflexivity).
  eexists. rewrite call_eq. cbv zeta. rewrite H. reflexivity.
Qed.

(** ** Further runs of the model *)

(** The whole trace of the first call of [dev_evaluator] with an output
    path. *)
Example dev_evaluator_call_trace :
  trace (snd (__call__ float32 "_" dev_evaluator (length_model 2) (Some "out") 1 (-1)
                out_world))
  = [EvEncode 2 None ["ab"; "cde"] false 32;
     EvLogInfo "MSE evaluation (lower = better) on the dev dataset after epoch 1:";
     EvLogMSE f32_200;
     EvOpen "out/mse_evaluation_dev_results.csv" ModeWrite;
     EvWriteRow "out/mse_evaluation_dev_results.csv"
       [CellStr "epoch"; CellStr "steps"; CellStr "MSE"];
     EvWriteRow "out/mse_evaluation_dev_results.csv"
       [CellInt 1; CellInt (-1); CellFloat f32_200]].
Proof. vm_compute. reflexivity. Qed.

(** The metric of that call is stored under the prefixed key. *)
Example dev_evaluator_call_metrics :
  ∃ model',
    fst (__call__ float32 "_" dev_evaluator (length_model 2) (Some "out") 1 (-1)
           out_world)
    = Ok ({[ "dev_negative_mse" := fneg f32_200 ]}, dev_evaluator, model')
    ∧ st_card_metrics model' !! "dev_negative_mse" = Some (fneg f32_200).
Proof.
  eexists. rewrite call_eq. cbv zeta. rewrite dev_evaluator_mse.
  split; [reflexivity|]. simpl. apply lookup_union_Some_l, lookup_singleton_eq.
Qed.

(** The log message names the steps and the truncation dimension. *)
Example out_txt_steps_truncated :
  out_txt (mk_MSEEvaluator (Some 64%nat) (mk_ndarray (0, 64)%nat []) [] false 32
             "dev" "mse_evaluation_dev_results.csv" ["epoch"; "steps"; "MSE"]
             true "negative_mse") 2 500
  = " in epoch 2 after 500 steps (truncated to 64)".
Proof. vm_compute. reflexivity. Qed.

(** Three target sentences against the two source sentences of
    [dev_evaluator]: the shapes do not broadcast and the call raises, with
    an output path as well, after the [encode] alone. *)
Example dev_evaluator_shape_mismatch :
  __call__ float32 "_"
    (mk_MSEEvaluator None (source_embeddings dev_evaluator) ["ab"; "cde"; "f"]
       false 32 "dev" "mse_evaluation_dev_results.csv" ["epoch"; "steps"; "MSE"]
       true "negative_mse")
    (length_model 2) (Some "out") 1 (-1) empty_world
  = (Raise broadcast_error,
     mk_World ∅ ∅ ∅ [EvEncode 2 None ["ab"; "cde"; "f"] false 32]).
Proof. rewrite call_eq. reflexivity. Qed.

(** Equal embedding matrices with an infinite element: [inf - inf] is [NaN],
    and so is the MSE. *)
Example infinite_embeddings_mse_is_nan :
  target_embeddings
    (mk_MSEEvaluator None (st_embed (overflowing_model 1) None ["ab"] false 32)
       ["ab"] false 32 "" "mse_evaluation__results.csv" ["epoch"; "steps"; "MSE"]
       true "negative_mse") (overflowing_model 1)
  = st_embed (overflowing_model 1) None ["ab"] false 32
  ∧ compute_mse float32 (st_embed (overflowing_model 1) None ["ab"] false 32)
      (st_embed (overflowing_model 1) None ["ab"] false 32)
    = Ok S754_nan.
Proof. split; [reflexivity | vm_compute; reflexivity]. Qed.

(** The path of the CSV file for an output path that ends with a slash and
    for the empty output path. *)
Example os_path_join_examples :
  os_path_join "out/" "mse_evaluation_dev_results.csv"
  = "out/mse_evaluation_dev_results.csv"
  ∧ os_path_join "" "mse_evaluation_dev_results.csv"
    = "mse_evaluation_dev_results.csv"
  ∧ os_path_join "runs/a" "mse_evaluation__results.csv"
    = "runs/a/mse_evaluation__results.csv".
Proof. repeat split. Qed.


(** The directory part of a path, as [open] looks for it. *)
Example os_path_dirname_examples :
  os_path_dirname "out/mse_evaluation_dev_results.csv" = "out"
  ∧ os_path_dirname "mse_evaluation_dev_results.csv" = ""
  ∧ os_path_dirname "/results.csv" = "/"
  ∧ os_path_dirname "runs/a/results.csv" = "runs/a".
Proof. repeat split. Qed.

(** A call with an output directory that does not exist: the MSE is computed
    and logged, [open] raises [FileNotFoundError], no file is created and no
    metric is returned. *)
Example dev_evaluator_missing_directory :
  __call__ float32 "_" dev_evaluator (length_model 2) (Some "out") 1 (-1)
    empty_world
  = (Raise (OSError FileNotFoundError "out/mse_evaluation_dev_results.csv"),
     mk_World ∅ ∅ ∅
       [EvEncode 2 None ["ab"; "cde"] false 32;
        EvLogInfo "MSE evaluation (lower = better) on the dev dataset after epoch 1:";
        EvLogMSE f32_200]).
Proof. vm_compute. reflexivity. Qed.

(** A call whose CSV file the operating system refuses to open raises the
    error of the refusal. *)
Example dev_evaluator_permission_denied :
  fst (__call__ float32 "_" dev_evaluator (length_model 2) (Some "out") 1 (-1)
         locked_world)
  = Raise (OSError PermissionError "out/mse_evaluation_dev_results.csv")
  ∧ files (snd (__call__ float32 "_" dev_evaluator (length_model 2) (Some "out")
                  1 (-1) locked_world)) = ∅.
Proof. split; vm_compute; reflexivity. Qed.

(** A call whose CSV file exists appends its data row after the rows the
    file holds. *)
Example dev_evaluator_existing_file_appends :
  files (snd (__call__ float32 "_" dev_evaluator (length_model 2) (Some "out") 2 7
                used_world)) !! "out/mse_evaluation_dev_results.csv"
  = (λ rows, rows ++ [[CellInt 2; CellInt 7; CellFloat f32_200]])
    <$> files used_world !! "out/mse_evaluation_dev_results.csv".
Proof. vm_compute. reflexivity. Qed.

(** numpy's mean is not the left-to-right sum in [float32]: for 2^24
    followed by fifteen ones, the eight accumulators of the pairwise sum
    keep the ones that a running sum would lose. *)
Example mean_is_pairwise :
  let l := float_of_Z float32 16777216 :: replicate 15 (float_of_Z float32 1) in
  np_sum_list float32 l = float_of_Z float32 16777230
  ∧ fold_left (fadd float32) l pos_zero = float_of_Z float32 16777216
  ∧ fmul float32 (np_mean_list float32 l 16) (float_of_Z float32 100)
    = S754_finite false 13107211 3.
Proof. vm_compute. repeat split. Qed.

(** The mean of [float16] values is accumulated in [float32]: 4096 copies
    of 62496, whose sum is beyond the range of [float16], have the mean
    62496. *)
Example mean_float16_accumulates_in_float32 :
  let x := S754_finite false 1953 5 in
  np_mean_list float16 (replicate 4096 x) 4096 = x
  ∧ fold_left (fadd float16) (replicate 4096 x) pos_zero = S754_infinity false.
Proof. vm_compute. repeat split. Qed.
(** * Further properties of the evaluator *)

(** ** The files after any sequence of calls *)

Section Runs.
Variable dt : dtype.
Variable sep : string.

(** The file at [q] after one call: a call that logs to [q] and computes an
    MSE adds its data row, after the header when it creates the file; any
    other call, also one whose [open] fails, leaves the file as it is. *)
Lemma call_file self c w q :
  files (snd (__call__ dt sep self (ca_model c) (ca_output_path c)
                (ca_epoch c) (ca_steps c) w)) !! q
  = match (if logs_to self q w c then data_row dt self c else None) with
    | Some row =>
        match files w !! q with
        | Some old => Some (old ++ [row])
        | None => Some [CellStr <$> csv_headers self; row]
        end
    | None => files w !! q
    end.
Proof.
  rewrite call_eq. cbv zeta. unfold logs_to, data_row.
  destruct (compute_mse _ _ _) as [mse|e].
  2:{ cbn [snd]. now destruct (write_csv self && _). }
  destruct (write_csv self) eqn:Hw.
  2:{ rewrite (csv_fault_disabled self _ w) by auto. cbn [snd].
      now rewrite log_csv_disabled by auto. }
  destruct (ca_output_path c) as [p|]; [|reflexivity].
  unfold csv_fault, csv_path. rewrite Hw.
  destruct (open_fault w (os_path_join p (csv_file self))) as [e|] eqn:Hopen;
    cbn [fmap option_fmap option_map snd andb].
  - case_bool_decide as Hq; [|reflexivity].
    subst q. now rewrite Hopen.
  - rewrite (log_csv_enabled self p (ca_epoch c) (ca_steps c) mse _ Hw)
      by exact Hopen.
    cbv zeta. cbn [snd]. case_bool_decide as Hq.
    + subst q. rewrite Hopen. simpl.
      destruct (files w !! _); simpl; now rewrite lookup_insert_eq.
    + simpl. destruct (files w !! os_path_join p (csv_file self)); simpl;
        now rewrite lookup_insert_ne.
Qed.

(** A call changes neither the directories nor the refusals of the
    operating system. *)
Lemma call_dirs_faults self model output_path epoch steps w :
  let w' := snd (__call__ dt sep self model output_path epoch steps w) in
  dirs w' = dirs w ∧ faults w' = faults w.
Proof.
  cbv zeta. rewrite call_eq. cbv zeta.
  destruct (compute_mse _ _ _) as [mse|e]; [|split; reflexivity].
  destruct (csv_fault self output_path w) eqn:Hfault; [split; reflexivity|].
  simpl. destruct output_path as [p|]; [|split; reflexivity].
  destruct (write_csv self) eqn:Hw;
    [|rewrite log_csv_disabled by auto; split; reflexivity].
  unfold csv_fault, csv_path in Hfault. rewrite Hw in Hfault.
  destruct (open_fault w (os_path_join p (csv_file self))) eqn:Hopen;
    [discriminate|].
  rewrite (log_csv_enabled self p epoch steps mse _ Hw) by exact Hopen.
  simpl. destruct (files w !! _); split; reflexivity.
Qed.

(** Whether a path can be opened depends on the directories, the refusals
    and on whether the file exists. *)
Lemma open_fault_same w w' q :
  dirs w' = dirs w → faults w' = faults w → files w' !! q = files w !! q →
  open_fault w' q = open_fault w q.
Proof.
  intros Hdirs Hfaults Hfile. unfold open_fault, parent_exists.
  now rewrite Hdirs, Hfaults, Hfile.
Qed.

Lemma open_fault_created w w' q :
  dirs w' = dirs w → faults w' = faults w → open_fault w q = None →
  is_Some (files w' !! q) → open_fault w' q = None.
Proof.
  intros Hdirs Hfaults Hopen [rows Hfile]. unfold open_fault in *.
  rewrite Hdirs, Hfaults, Hfile.
  destruct (faults w !! q); [discriminate|].
  now destruct (bool_decide (q ∈ dirs w)).
Qed.

(** Whether a path can be opened is not changed by a call: a call creates
    a file only where [open] succeeds already. *)
Lemma call_open_fault self c w q :
  open_fault (snd (__call__ dt sep self (ca_model c) (ca_output_path c)
                     (ca_epoch c) (ca_steps c) w)) q
  = open_fault w q.
Proof.
  pose proof (call_file self c w q) as Hfile.
  destruct (call_dirs_faults self (ca_model c) (ca_output_path c) (ca_epoch c)
              (ca_steps c) w) as [Hdirs Hfaults].
  destruct (logs_to self q w c) eqn:Hlogs;
    [|now apply open_fault_same].
  destruct (data_row dt self c) as [row|]; [|now apply open_fault_same].
  assert (Hopen : open_fault w q = None).
  { unfold logs_to in Hlogs. destruct (write_csv self); [|discriminate].
    destruct (ca_output_path c); [|discriminate]. simpl in Hlogs.
    apply andb_true_iff in Hlogs as [_ Hlogs].
    now apply bool_decide_eq_true in Hlogs. }
  rewrite Hopen. apply (open_fault_created w); try assumption.
  rewrite Hfile. destruct (files w !! q); eauto.
Qed.

Lemma logged_rows_call self c w q calls :
  logged_rows dt self q
    (snd (__call__ dt sep self (ca_model c) (ca_output_path c)
            (ca_epoch c) (ca_steps c) w)) calls
  = logged_rows dt self q w calls.
Proof.
  unfold logged_rows. f_equal. apply List.filter_ext. intros c'.
  unfold logs_to. now rewrite call_open_fault.
Qed.

Lemma run_calls_cons self c calls w :
  run_calls dt sep self (c :: calls) w
  = run_calls dt sep self calls
      (snd (__call__ dt sep self (ca_model c) (ca_output_path c)
              (ca_epoch c) (ca_steps c) w)).
Proof.
  simpl.
  pose proof (call_returns_self dt sep self (ca_model c) (ca_output_path c)
                (ca_epoch c) (ca_steps c) w) as Hself.
  destruct (__call__ _ _ _ _ _ _ _ _) as [[[[metrics self'] model']|e] w'];
    simpl in *; [|reflexivity].
  now rewrite (Hself _ _ _ eq_refl).
Qed.

(** The file at [q] after a sequence of calls: its former rows followed by
    the rows logged to it; a file that did not exist is created, with the
    header first, by the first call that logs a row to it. *)
Lemma run_calls_file self calls : ∀ w q,
  files (snd (run_calls dt sep self calls w)) !! q
  = match files w !! q with
    | Some old => Some (old ++ logged_rows dt self q w calls)
    | None =>
        match logged_rows dt self q w calls with
        | [] => None
        | rows => Some ((CellStr <$> csv_headers self) :: rows)
        end
    end.
Proof.
  induction calls as [|c calls IH]; intros w q.
  - simpl. destruct (files w !! q); [now rewrite app_nil_r | reflexivity].
  - rewrite run_calls_cons, IH, call_file, logged_rows_call.
    unfold logged_rows. simpl List.filter.
    destruct (logs_to self q w c); simpl.
    + destruct (data_row dt self c) as [row|]; simpl.
      * destruct (files w !! q); simpl; [now rewrite <- app_assoc | reflexivity].
      * reflexivity.
    + reflexivity.
Qed.

End Runs.

(** ** Facts on strings and on the CSV path *)

Lemma string_length_app (a b : string) :
  String.length (a +:+ b) = (String.length a + String.length b)%nat.
Proof. induction a as [|c a IH]; simpl; [reflexivity | now rewrite IH]. Qed.

Lemma string_app_inv_tail (a b t : string) : a +:+ t = b +:+ t → a = b.
Proof.
  revert b. induction a as [|c a IH]; intros [|c' b] H; simpl in H.
  - reflexivity.
  - apply (f_equal String.length) in H. simpl in H.
    rewrite !string_length_app in H. simpl in H. lia.
  - apply (f_equal String.length) in H. simpl in H.
    rewrite !string_length_app in H. simpl in H. lia.
  - injection H as -> H. f_equal. now apply IH.
Qed.

Lemma string_app_inv_head (s a b : string) : s +:+ a = s +:+ b → a = b.
Proof. induction s as [|c s IH]; simpl; [auto | intros [= H]; auto]. Qed.

(** The name of the CSV file determines the name of the evaluator. *)
Lemma csv_file_name_inj nm1 nm2 :
  "mse_evaluation_" +:+ nm1 +:+ "_results.csv"
  = "mse_evaluation_" +:+ nm2 +:+ "_results.csv" → nm1 = nm2.
Proof.
  intros H. apply string_app_inv_head in H. now apply string_app_inv_tail in H.
Qed.

(** Inside one output path, the CSV files of two evaluators coincide only
    when the names of the evaluators do. *)
Lemma csv_path_inj p nm1 nm2 :
  os_path_join p ("mse_evaluation_" +:+ nm1 +:+ "_results.csv")
  = os_path_join p ("mse_evaluation_" +:+ nm2 +:+ "_results.csv") → nm1 = nm2.
Proof.
  rewrite !os_path_join_csv_file. intros H.
  apply string_app_inv_head in H.
  destruct (bool_decide (p = "") || ends_with_slash p).
  - now apply csv_file_name_inj.
  - apply (string_app_inv_head "/") in H. now apply csv_file_name_inj.
Qed.

Section RunProperties.
Variable dt : dtype.
Variable sep : string.

Lemma filter_logs_to_all self p calls w :
  write_csv self = true →
  open_fault w (os_path_join p (csv_file self)) = None →
  Forall (λ c, ca_output_path c = Some p) calls →
  List.filter (logs_to self (os_path_join p (csv_file self)) w) calls = calls.
Proof.
  intros Hw Hopen. induction 1 as [|c calls Hc _ IH]; simpl; [reflexivity|].
  unfold logs_to at 1. rewrite Hw, Hc. simpl.
  rewrite !bool_decide_eq_true_2 by (reflexivity || exact Hopen).
  simpl. now rewrite IH.
Qed.

Lemma filter_logs_to_none self q calls w :
  write_csv self = false
  ∨ Forall (λ c, ∀ p, ca_output_path c = Some p →
                  os_path_join p (csv_file self) ≠ q) calls →
  List.filter (logs_to self q w) calls = [].
Proof.
  intros H. induction calls as [|c calls IH]; simpl; [reflexivity|].
  assert (Hc : logs_to self q w c = false).
  { unfold logs_to. destruct H as [-> | H]; [reflexivity|].
    apply Forall_cons in H as [Hc _].
    destruct (ca_output_path c) as [p|]; [|apply andb_false_r].
    rewrite bool_decide_eq_false_2 by now apply Hc. apply andb_false_r. }
  rewrite Hc. apply IH.
  destruct H as [H | H]; [now left | right]. now apply Forall_cons in H as [_ H].
Qed.

Lemma omap_all_Some {A B} (f : A → option B) l :
  Forall (λ x, is_Some (f x)) l → length (omap f l) = length l.
Proof.
  induction 1 as [|x l [y Hy] _ IH]; [reflexivity|].
  cbn. rewrite Hy. cbn. f_equal. exact IH.
Qed.

(** X1 — Any number of calls of an evaluator constructed with
    [write_csv=True], all with the same output path, with no CSV file to
    begin with and a CSV path that can be opened, leave the file with the
    header row followed by the data rows of the calls that computed an MSE,
    in the order of the calls; calls that raised add nothing, and when no
    call computed an MSE the file is not created.  When all [n] calls
    compute an MSE there are [n] data rows. *)
Theorem calls_log_header_then_rows
    ss ts t spb bs nm td w0 self t' p calls w :
  fst (__init__ ss ts (Some t) spb bs nm true td w0) = Ok (self, t') →
  files w !! os_path_join p (csv_file self) = None →
  open_fault w (os_path_join p (csv_file self)) = None →
  Forall (λ c, ca_output_path c = Some p) calls →
  let rows := omap (data_row dt self) calls in
  files (snd (run_calls dt sep self calls w)) !! os_path_join p (csv_file self)
  = match rows with
    | [] => None
    | _ => Some ([CellStr "epoch"; CellStr "steps"; CellStr "MSE"] :: rows)
    end
  ∧ (Forall (λ c, is_Some (data_row dt self c)) calls →
     length rows = length calls).
Proof.
  intros Hinit Hnone Hopen Hcalls rows.
  destruct (init_fields _ _ _ _ _ _ _ _ _ _ _ Hinit) as (_ & Hhdr & Hw & _).
  split; [|apply omap_all_Some].
  rewrite run_calls_file, Hnone. unfold logged_rows.
  rewrite (filter_logs_to_all self p calls w Hw Hopen Hcalls), Hhdr. fold rows.
  now destruct rows.
Qed.

(** X2 — No sequence of calls, whatever the evaluator, the models and the
    output paths, truncates or rewrites a file that exists: the former rows
    of the file stay in place and the rows logged to it follow them. *)
Theorem calls_never_truncate self calls w q old :
  files w !! q = Some old →
  files (snd (run_calls dt sep self calls w)) !! q
  = Some (old ++ logged_rows dt self q w calls)
  ∧ Forall (λ row, ∃ epoch steps mse,
               row = [CellInt epoch; CellInt steps; CellFloat mse])
      (logged_rows dt self q w calls).
Proof.
  intros Hold. split; [now rewrite run_calls_file, Hold|].
  unfold logged_rows. apply Forall_forall. intros row Hrow.
  apply list_elem_of_omap in Hrow as (c & _ & Hc).
  unfold data_row in Hc. destruct (compute_mse _ _ _); [|discriminate].
  injection Hc as <-. eauto.
Qed.

(** X3 — A sequence of calls changes no file but the CSV files it logs to:
    any path stays as it was when the evaluator has [write_csv=False], or
    when the path is not the CSV path of any of the calls. *)
Theorem calls_touch_only_their_csv_file self calls w q :
  write_csv self = false
  ∨ Forall (λ c, ∀ p, ca_output_path c = Some p →
                  os_path_join p (csv_file self) ≠ q) calls →
  files (snd (run_calls dt sep self calls w)) !! q = files w !! q.
Proof.
  intros H. rewrite run_calls_file. unfold logged_rows.
  rewrite (filter_logs_to_none self q calls w H). simpl.
  destruct (files w !! q); [now rewrite app_nil_r | reflexivity].
Qed.

(** X6 — Two evaluators constructed with different names log to different
    files of one output path: calls of the one, all with the output path
    [p], leave the CSV file of the other inside [p] as it was. *)
Theorem evaluators_with_distinct_names_do_not_interfere
    ss1 ts1 t1 spb1 bs1 nm1 wcsv1 td1 w1 self1 t1'
    ss2 ts2 t2 spb2 bs2 nm2 wcsv2 td2 w2 self2 t2' p calls w :
  fst (__init__ ss1 ts1 (Some t1) spb1 bs1 nm1 wcsv1 td1 w1) = Ok (self1, t1') →
  fst (__init__ ss2 ts2 (Some t2) spb2 bs2 nm2 wcsv2 td2 w2) = Ok (self2, t2') →
  nm1 ≠ nm2 →
  Forall (λ c, ca_output_path c = Some p) calls →
  os_path_join p (csv_file self1) ≠ os_path_join p (csv_file self2)
  ∧ files (snd (run_calls dt sep self1 calls w)) !! os_path_join p (csv_file self2)
    = files w !! os_path_join p (csv_file self2).
Proof.
  intros Hinit1 Hinit2 Hne Hcalls.
  destruct (init_fields _ _ _ _ _ _ _ _ _ _ _ Hinit1) as (Hfile1 & _).
  destruct (init_fields _ _ _ _ _ _ _ _ _ _ _ Hinit2) as (Hfile2 & _).
  assert (Hpath : os_path_join p (csv_file self1) ≠ os_path_join p (csv_file self2)).
  { rewrite Hfile1, Hfile2. intros H. now apply Hne, (csv_path_inj p). }
  split; [exact Hpath|].
  rewrite run_calls_file. unfold logged_rows.
  rewrite (filter_logs_to_none self1 _ calls).
  - simpl. destruct (files w !! _); [now rewrite app_nil_r | reflexivity].
  - right. eapply Forall_impl; [exact Hcalls|]. simpl.
    intros c Hc p' Hp'. rewrite Hc in Hp'. injection Hp' as <-. exact Hpath.
Qed.

End RunProperties.

(** ** The MSE does not tell the teacher from the student *)

Section SpecFloatSymmetry.
Variables prec emax : Z.

Lemma binary_round_aux_opp s m e l :
  binary_round_aux prec emax (negb s) m e l
  = SFopp (binary_round_aux prec emax s m e l).
Proof.
  unfold binary_round_aux.
  destruct (shr_fexp prec emax m e l) as [mrs' e'].
  destruct (shr_fexp prec emax _ e' loc_Exact) as [mrs'' e''].
  destruct (shr_m mrs''); simpl; try reflexivity.
  destruct (_ <=? _); reflexivity.
Qed.

Lemma SFmul_opp_opp d : SFmul prec emax (SFopp d) (SFopp d) = SFmul prec emax d d.
Proof. destruct d as [[]|[]| |[] m e]; reflexivity. Qed.

(** The square of a rounded integer does not depend on its sign. *)
Lemma binary_normalize_square_opp m e :
  let d := binary_normalize prec emax m e false in
  let d' := binary_normalize prec emax (- m) e false in
  SFmul prec emax d' d' = SFmul prec emax d d.
Proof.
  destruct m as [|p|p]; simpl; [reflexivity | |]; unfold binary_round;
    destruct (shl_align _ _ _) as [mz ez].
  - rewrite (binary_round_aux_opp false). apply SFmul_opp_opp.
  - rewrite (binary_round_aux_opp false). symmetry. apply SFmul_opp_opp.
Qed.

Lemma SFsub_square_comm x y :
  SFmul prec emax (SFsub prec emax x y) (SFsub prec emax x y)
  = SFmul prec emax (SFsub prec emax y x) (SFsub prec emax y x).
Proof.
  destruct x as [[]|[]| |sx mx ex], y as [[]|[]| |sy my ey];
    try reflexivity; try (destruct sx; reflexivity);
    try (destruct sy; reflexivity).
  simpl. rewrite (Z.min_comm ey ex).
  set (ez := Z.min ex ey).
  set (a := cond_Zopp sx (Z.pos (fst (shl_align mx ex ez)))).
  set (b := cond_Zopp sy (Z.pos (fst (shl_align my ey ez)))).
  replace (b - a) with (- (a - b)) by lia.
  symmetry. apply binary_normalize_square_opp.
Qed.

(** [NaN] is absorbing for the subtraction and the multiplication. *)
Lemma SFsub_nan_r x : SFsub prec emax x S754_nan = S754_nan.
Proof. now destruct x. Qed.

Lemma SFmul_nan_r x : SFmul prec emax x S754_nan = S754_nan.
Proof. now destruct x. Qed.

End SpecFloatSymmetry.

Lemma broadcast_dim_comm m n : broadcast_dim m n = broadcast_dim n m.
Proof.
  unfold broadcast_dim.
  destruct (Nat.eqb_spec m n), (Nat.eqb_spec n m), (Nat.eqb_spec m 1),
    (Nat.eqb_spec n 1); try reflexivity; try congruence; lia.
Qed.

Lemma broadcast_shapes_comm s t : broadcast_shapes s t = broadcast_shapes t s.
Proof.
  unfold broadcast_shapes.
  now rewrite (broadcast_dim_comm (fst s)), (broadcast_dim_comm (snd s)).
Qed.

Lemma concat_elem_of {A} (x : A) l ls : l ∈ ls → x ∈ l → x ∈ concat ls.
Proof.
  induction 1 as [l ls|l l' ls _ IH]; intros Hx; simpl; apply elem_of_app;
    [now left | right; now apply IH].
Qed.

Section MSEProperties.
Variable dt : dtype.

Lemma squared_difference_comm x y :
  squared_difference dt x y = squared_difference dt y x.
Proof. apply SFsub_square_comm. Qed.

Lemma squared_differences_row_comm r1 : ∀ r2,
  zip_with (squared_difference dt) r1 r2 = zip_with (squared_difference dt) r2 r1.
Proof.
  induction r1 as [|x r1 IH]; intros [|y r2]; simpl; try reflexivity.
  now rewrite squared_difference_comm, IH.
Qed.

Lemma squared_differences_comm a b :
  squared_differences dt a b = squared_differences dt b a.
Proof.
  unfold squared_differences. f_equal. generalize (rows b).
  induction (rows a) as [|r1 ra IH]; intros [|r2 rb]; simpl; try reflexivity.
  now rewrite squared_differences_row_comm, IH.
Qed.

(** X4 — The MSE of lines 82-83 is symmetric: exchanging the source and the
    target embedding matrices gives the same result, be it the same float
    (bit for bit, also when it is [NaN] or infinite) or the same error. *)
Theorem compute_mse_symmetric source target :
  compute_mse dt source target = compute_mse dt target source.
Proof.
  destruct (broadcast_shapes (shape source) (shape target)) as [s|] eqn:Hs.
  - rewrite (compute_mse_spec dt source target s Hs).
    rewrite broadcast_shapes_comm in Hs.
    rewrite (compute_mse_spec dt target source s Hs).
    unfold spec_mse. now rewrite squared_differences_comm.
  - rewrite (compute_mse_raises dt source target Hs).
    rewrite broadcast_shapes_comm in Hs.
    now rewrite (compute_mse_raises dt target source Hs).
Qed.

Lemma squared_difference_nan x y :
  x = S754_nan ∨ y = S754_nan → squared_difference dt x y = S754_nan.
Proof.
  unfold squared_difference, fsub, fmul. intros [-> | ->]; [reflexivity|].
  now rewrite SFsub_nan_r.
Qed.

(** A [NaN] at a position that both arrays have is a [NaN] among the
    squared differences. *)
Lemma squared_differences_nan a b i j r1 r2 x y :
  rows a !! i = Some r1 → rows b !! i = Some r2 →
  r1 !! j = Some x → r2 !! j = Some y → x = S754_nan ∨ y = S754_nan →
  S754_nan ∈ squared_differences dt a b.
Proof.
  intros Ha Hb Hx Hy Hnan. unfold squared_differences.
  apply (concat_elem_of _ (zip_with (squared_difference dt) r1 r2)).
  - apply (list_elem_of_lookup_2 _ i). now rewrite lookup_zip_with, Ha, Hb.
  - apply (list_elem_of_lookup_2 _ j). rewrite lookup_zip_with, Hx, Hy. simpl.
    now rewrite (squared_difference_nan x y Hnan).
Qed.

(** In two well-formed arrays of one shape, every position of the one is a
    position of the other. *)
Lemma wf_same_position a b i j r1 x :
  wf_ndarray a → wf_ndarray b → shape a = shape b →
  rows a !! i = Some r1 → r1 !! j = Some x →
  ∃ r2 y, rows b !! i = Some r2 ∧ r2 !! j = Some y.
Proof.
  intros [Hra Hca] [Hrb Hcb] Hshape Hi Hj.
  unfold nrows, ncols in *. rewrite <- Hshape in Hrb, Hcb.
  destruct (lookup_lt_is_Some_2 (rows b) i) as [r2 Hr2].
  { rewrite Hrb, <- Hra. eapply lookup_lt_Some, Hi. }
  destruct (lookup_lt_is_Some_2 r2 j) as [y Hy].
  { rewrite Forall_forall in Hca, Hcb.
    rewrite (Hcb r2), <- (Hca r1).
    - eapply lookup_lt_Some, Hj.
    - eapply list_elem_of_lookup_2, Hi.
    - eapply list_elem_of_lookup_2, Hr2. }
  eauto.
Qed.

(** X5 — A [NaN] anywhere in the source or in the target embeddings makes
    the MSE [NaN]: for two well-formed embedding matrices of one shape, if
    an element of either is [NaN] the computed MSE is [NaN]. *)
Theorem nan_embedding_gives_nan_mse source target :
  wf_ndarray source → wf_ndarray target → shape source = shape target →
  (∃ r, r ∈ rows source ∧ S754_nan ∈ r) ∨ (∃ r, r ∈ rows target ∧ S754_nan ∈ r) →
  compute_mse dt source target = Ok S754_nan.
Proof.
  intros Hs Ht Hshape Hnan.
  rewrite (compute_mse_spec dt source target (shape source))
    by (rewrite Hshape; apply broadcast_shapes_diag).
  rewrite (broadcast_to_same source Hs).
  rewrite Hshape at 1. rewrite (broadcast_to_same target Ht).
  f_equal. unfold spec_mse.
  assert (Hin : S754_nan ∈ squared_differences dt source target).
  { destruct Hnan as [(r & Hr & Hx) | (r & Hr & Hx)];
      apply list_elem_of_lookup_1 in Hr as [i Hi];
      apply list_elem_of_lookup_1 in Hx as [j Hj].
    - destruct (wf_same_position source target i j r _ Hs Ht Hshape Hi Hj)
        as (r2 & y & Hr2 & Hy).
      eapply squared_differences_nan; eauto.
    - destruct (wf_same_position target source i j r _ Ht Hs (eq_sym Hshape) Hi Hj)
        as (r1 & x & Hr1 & Hx).
      eapply squared_differences_nan; eauto. }
  rewrite (np_mean_list_nan dt _ _ Hin). unfold fmul. apply SFmul_nan_r.
Qed.

End MSEProperties.

(** ** The CSV row against the returned metric *)

Section RowAndMetric.
Variable dt : dtype.
Variable sep : string.

(** X7 — A call that logs to the CSV file and returns has computed an MSE
    with the pipeline of lines 82-83; it writes, as the last row of the
    file, the epoch, the steps and that MSE itself, after the rows the file
    held or after the header, and returns under the metric key the negation
    of that MSE: the file holds [mse], the caller receives [-mse]. *)
Theorem csv_row_is_negated_metric
    self model p epoch steps w metrics self' model' :
  write_csv self = true →
  fst (__call__ dt sep self model (Some p) epoch steps w)
  = Ok (metrics, self', model') →
  ∃ mse,
    compute_mse dt (source_embeddings self) (target_embeddings self model) = Ok mse
    ∧ metrics = {[ metric_key sep (name self) := fneg mse ]}
    ∧ files (snd (__call__ dt sep self model (Some p) epoch steps w))
        !! os_path_join p (csv_file self)
      = Some (match files w !! os_path_join p (csv_file self) with
              | Some rows_before => rows_before
              | None => [CellStr <$> csv_headers self]
              end ++ [[CellInt epoch; CellInt steps; CellFloat mse]]).
Proof.
  intros Hw. rewrite call_eq. cbv zeta.
  destruct (compute_mse _ _ _) as [mse|e]; [|discriminate].
  unfold csv_fault, csv_path. rewrite Hw.
  destruct (open_fault w (os_path_join p (csv_file self))) eqn:Hopen;
    [discriminate|].
  simpl. intros [= <- <- <-]. exists mse.
  split; [reflexivity|]. split; [reflexivity|].
  rewrite (log_csv_enabled self p epoch steps mse _ Hw) by exact Hopen. simpl.
  destruct (files w !! os_path_join p (csv_file self)) as [old|]; simpl;
    now rewrite lookup_insert_eq.
Qed.

End RowAndMetric.

(** ** The further properties at concrete inputs *)

Example dev_calls_rows :
  omap (data_row float32 dev_evaluator) dev_calls
  = [[CellInt 1; CellInt (-1); CellFloat f32_200];
     [CellInt 2; CellInt (-1); CellFloat f32_200]].
Proof. vm_compute. reflexivity. Qed.

(** Witness of X1: three calls of [dev_evaluator], the second of which
    raises, in a world that holds the directory [out] and no file. *)
Lemma calls_log_header_then_rows_witness :
  fst (__init__ ["ab"; "c"] ["ab"; "cde"] (Some (length_model 1)) false 32 "dev"
         true None empty_world)
  = Ok (dev_evaluator, length_model 1)
  ∧ files out_world !! os_path_join "out" (csv_file dev_evaluator) = None
  ∧ open_fault out_world (os_path_join "out" (csv_file dev_evaluator)) = None
  ∧ Forall (λ c, ca_output_path c = Some "out") dev_calls
  ∧ files (snd (run_calls float32 "_" dev_evaluator dev_calls out_world))
      !! "out/mse_evaluation_dev_results.csv"
    = Some [[CellStr "epoch"; CellStr "steps"; CellStr "MSE"];
            [CellInt 1; CellInt (-1); CellFloat f32_200];
            [CellInt 2; CellInt (-1); CellFloat f32_200]].
Proof.
  assert (H1 : fst (__init__ ["ab"; "c"] ["ab"; "cde"] (Some (length_model 1))
                      false 32 "dev" true None empty_world)
               = Ok (dev_evaluator, length_model 1)) by reflexivity.
  assert (H2 : files out_world !! os_path_join "out" (csv_file dev_evaluator)
               = None) by reflexivity.
  assert (Hopen : open_fault out_world (os_path_join "out" (csv_file dev_evaluator))
                  = None) by reflexivity.
  assert (H3 : Forall (λ c, ca_output_path c = Some "out") dev_calls)
    by (repeat constructor).
  split; [exact H1|]. split; [exact H2|]. split; [exact Hopen|]. split; [exact H3|].
  destruct (calls_log_header_then_rows float32 "_" _ _ _ _ _ _ _ _ _ _ "out"
              dev_calls out_world H1 H2 Hopen H3) as [Hfile _].
  rewrite dev_calls_rows in Hfile. exact Hfile.
Defined.

Example dev_calls_logged_rows :
  logged_rows float32 dev_evaluator "out/mse_evaluation_dev_results.csv"
    used_world dev_calls
  = [[CellInt 1; CellInt (-1); CellFloat f32_200];
     [CellInt 2; CellInt (-1); CellFloat f32_200]].
Proof. vm_compute. reflexivity. Qed.

(** Without the directory [out] no call can open the file, and none logs a
    row. *)
Example dev_calls_missing_directory :
  logged_rows float32 dev_evaluator "out/mse_evaluation_dev_results.csv"
    empty_world dev_calls = []
  ∧ files (snd (run_calls float32 "_" dev_evaluator dev_calls empty_world)) = ∅.
Proof. split; vm_compute; reflexivity. Qed.

(** Witness of X2: the same calls on a file system that holds the CSV file
    already. *)
Lemma calls_never_truncate_witness :
  files used_world !! "out/mse_evaluation_dev_results.csv"
  = Some [[CellStr "epoch"; CellStr "steps"; CellStr "MSE"];
          [CellInt 0; CellInt (-1); CellFloat f32_50]]
  ∧ files (snd (run_calls float32 "_" dev_evaluator dev_calls used_world))
      !! "out/mse_evaluation_dev_results.csv"
    = Some [[CellStr "epoch"; CellStr "steps"; CellStr "MSE"];
            [CellInt 0; CellInt (-1); CellFloat f32_50];
            [CellInt 1; CellInt (-1); CellFloat f32_200];
            [CellInt 2; CellInt (-1); CellFloat f32_200]].
Proof.
  assert (H : files used_world !! "out/mse_evaluation_dev_results.csv"
              = Some [[CellStr "epoch"; CellStr "steps"; CellStr "MSE"];
                      [CellInt 0; CellInt (-1); CellFloat f32_50]])
    by reflexivity.
  split; [exact H|].
  destruct (calls_never_truncate float32 "_" dev_evaluator dev_calls
              used_world _ _ H) as [Hfile _].
  rewrite dev_calls_logged_rows in Hfile. exact Hfile.
Defined.

(** Witness of X3: the same calls leave the other file of [used_world]
    alone. *)
Lemma calls_touch_only_their_csv_file_witness :
  (write_csv dev_evaluator = false
   ∨ Forall (λ c, ∀ p, ca_output_path c = Some p →
                   os_path_join p (csv_file dev_evaluator) ≠ "out/notes.csv")
       dev_calls)
  ∧ files (snd (run_calls float32 "_" dev_evaluator dev_calls used_world))
      !! "out/notes.csv"
    = Some [[CellStr "kept"]].
Proof.
  assert (H : write_csv dev_evaluator = false
              ∨ Forall (λ c, ∀ p, ca_output_path c = Some p →
                              os_path_join p (csv_file dev_evaluator)
                              ≠ "out/notes.csv") dev_calls).
  { right. repeat constructor; simpl; intros p [= <-]; discriminate. }
  split; [exact H|].
  exact (calls_touch_only_their_csv_file float32 "_" dev_evaluator dev_calls
           used_world "out/notes.csv" H).
Defined.

(** Witness of X5: a [NaN] in the second row of the source embeddings. *)
Lemma nan_embedding_gives_nan_mse_witness :
  wf_ndarray nan_matrix ∧ wf_ndarray plain_matrix
  ∧ shape nan_matrix = shape plain_matrix
  ∧ compute_mse float32 nan_matrix plain_matrix = Ok S754_nan.
Proof.
  assert (H1 : wf_ndarray nan_matrix) by (split; [reflexivity | repeat constructor]).
  assert (H2 : wf_ndarray plain_matrix) by (split; [reflexivity | repeat constructor]).
  assert (H3 : shape nan_matrix = shape plain_matrix) by reflexivity.
  split; [exact H1|]. split; [exact H2|]. split; [exact H3|].
  apply (nan_embedding_gives_nan_mse float32 nan_matrix plain_matrix H1 H2 H3).
  left. exists [S754_nan; float_of_nat float32 3].
  split; [apply list_elem_of_further, list_elem_of_here | apply list_elem_of_here].
Defined.

(** Witness of X6: the calls of [dev_evaluator] against the file of
    [test_evaluator]. *)
Lemma evaluators_with_distinct_names_do_not_interfere_witness :
  fst (__init__ ["ab"; "c"] ["ab"; "cde"] (Some (length_model 1)) false 32 "dev"
         true None empty_world)
  = Ok (dev_evaluator, length_model 1)
  ∧ fst (__init__ ["ab"; "c"] ["ab"; "cde"] (Some (length_model 1)) false 32 "test"
           true None empty_world)
    = Ok (test_evaluator, length_model 1)
  ∧ "dev" ≠ "test"
  ∧ Forall (λ c, ca_output_path c = Some "out") dev_calls
  ∧ os_path_join "out" (csv_file dev_evaluator)
    ≠ os_path_join "out" (csv_file test_evaluator)
  ∧ files (snd (run_calls float32 "_" dev_evaluator dev_calls used_world))
      !! os_path_join "out" (csv_file test_evaluator)
    = files used_world !! os_path_join "out" (csv_file test_evaluator).
Proof.
  assert (H1 : fst (__init__ ["ab"; "c"] ["ab"; "cde"] (Some (length_model 1))
                      false 32 "dev" true None empty_world)
               = Ok (dev_evaluator, length_model 1)) by reflexivity.
  assert (H2 : fst (__init__ ["ab"; "c"] ["ab"; "cde"] (Some (length_model 1))
                      false 32 "test" true None empty_world)
               = Ok (test_evaluator, length_model 1)) by reflexivity.
  assert (H3 : "dev" ≠ "test") by discriminate.
  assert (H4 : Forall (λ c, ca_output_path c = Some "out") dev_calls)
    by (repeat constructor).
  split; [exact H1|]. split; [exact H2|]. split; [exact H3|]. split; [exact H4|].
  exact (evaluators_with_distinct_names_do_not_interfere float32 "_"
           _ _ _ _ _ _ _ _ _ _ _ _ _ _ _ _ _ _ _ _ _ _ "out" dev_calls used_world
           H1 H2 H3 H4).
Defined.

(** Witness of X7: the first call of [dev_evaluator], in a world that holds
    the directory [out] and no file. *)
Lemma csv_row_is_negated_metric_witness :
  write_csv dev_evaluator = true
  ∧ fst (__call__ float32 "_" dev_evaluator (length_model 2) (Some "out") 1 (-1)
           out_world)
    = Ok ({[ "dev_negative_mse" := fneg f32_200 ]}, dev_evaluator,
          store_metrics_in_model_card_data (length_model 2)
            {[ "dev_negative_mse" := fneg f32_200 ]})
  ∧ ∃ mse,
      compute_mse float32 (source_embeddings dev_evaluator)
        (target_embeddings dev_evaluator (length_model 2)) = Ok mse
      ∧ ({[ "dev_negative_mse" := fneg f32_200 ]} : gmap string float)
        = {[ metric_key "_" (name dev_evaluator) := fneg mse ]}
      ∧ files (snd (__call__ float32 "_" dev_evaluator (length_model 2)
                      (Some "out") 1 (-1) out_world))
          !! os_path_join "out" (csv_file dev_evaluator)
        = Some ([[CellStr "epoch"; CellStr "steps"; CellStr "MSE"]]
                ++ [[CellInt 1; CellInt (-1); CellFloat mse]]).
Proof.
  assert (H1 : write_csv dev_evaluator = true) by reflexivity.
  assert (H2 : fst (__call__ float32 "_" dev_evaluator (length_model 2)
                      (Some "out") 1 (-1) out_world)
               = Ok ({[ "dev_negative_mse" := fneg f32_200 ]}, dev_evaluator,
                     store_metrics_in_model_card_data (length_model 2)
                       {[ "dev_negative_mse" := fneg f32_200 ]})).
  { rewrite call_eq. cbv zeta. rewrite dev_evaluator_mse. reflexivity. }
  split; [exact H1|]. split; [exact H2|].
  exact (csv_row_is_negated_metric float32 "_" dev_evaluator (length_model 2)
           "out" 1 (-1) out_world _ _ _ H1 H2).
Defined.
